(** * The announce handler of the tracker (tracker/service/tracker.go)

    A shallow embedding of [GetAnnounceHandler] and of the library
    functions it calls, followed by the properties of the announce
    pipeline: validation, the order of the collaborator calls, the
    numeric conversions and the failure replies. *)

From Stdlib Require Import ZArith String Ascii List Lia DecimalString.
From stdpp Require Import base gmap strings list.

Open Scope string_scope.
Open Scope Z_scope.

(** ** Go values *)

(** Fixed-width integers are integers of [Z] with the wrap-around of a
    Go conversion written out. *)
Definition uint64 (z : Z) : Z := z mod 2 ^ 64.
Definition uint32 (z : Z) : Z := z mod 2 ^ 32.
Definition int64 (z : Z) : Z := (z + 2 ^ 63) mod 2 ^ 64 - 2 ^ 63.
Definition int32 (z : Z) : Z := (z + 2 ^ 31) mod 2 ^ 32 - 2 ^ 31.

(** An [error] value.  [NumError] is the one strconv builds; the errors
    of the datastore, of the policy and of the encoder are opaque to
    the handler, which only reads their text. *)
Inductive strconv_Err := ErrSyntax | ErrRange.

Inductive error :=
| NumError (Func Num : string) (Err : strconv_Err)
| errors_New (text : string).

(** ** strconv.ParseUint and strconv.ParseInt

    Both return Go's pair (value, error); the error is [None] for nil. *)
Module strconv.

Definition maxUint64 : Z := 2 ^ 64 - 1.

(** The value of one digit byte, before the comparison with the base. *)
Definition digit (d : ascii) : option Z :=
  let c := Z.of_N (N_of_ascii d) in
  if (48 <=? c) && (c <=? 57) then Some (c - 48)
  else if (97 <=? c) && (c <=? 122) then Some (c - 97 + 10)
  else if (65 <=? c) && (c <=? 90) then Some (c - 65 + 10)
  else None.

(** The digit loop of ParseUint: [n] is the accumulator. *)
Fixpoint digits (base cutoff maxVal : Z) (s : string) (n : Z)
  : Z * option strconv_Err :=
  match s with
  | EmptyString => (n, None)
  | String d s' =>
      match digit d with
      | None => (0, Some ErrSyntax)
      | Some v =>
          if v >=? base then (0, Some ErrSyntax)
          else if n >=? cutoff then (maxUint64, Some ErrRange)
          else
            let n := uint64 (n * base) in
            let n1 := uint64 (n + v) in
            if (n1 <? n) || (n1 >? maxVal) then (maxUint64, Some ErrRange)
            else digits base cutoff maxVal s' n1
      end
  end.

Definition ParseUint (s : string) (base bitSize : Z) : Z * option error :=
  match s with
  | EmptyString => (0, Some (NumError "ParseUint" s ErrSyntax))
  | _ =>
      let cutoff := maxUint64 / base + 1 in
      let maxVal := uint64 (uint64 (Z.shiftl 1 bitSize) - 1) in
      match digits base cutoff maxVal s 0 with
      | (n, None) => (n, None)
      | (n, Some e) => (n, Some (NumError "ParseUint" s e))
      end
  end.

Definition ParseInt (s : string) (base bitSize : Z) : Z * option error :=
  match s with
  | EmptyString => (0, Some (NumError "ParseInt" s ErrSyntax))
  | String c rest =>
      let s0 := s in
      let '(neg, s) :=
        if (c =? "+")%char then (false, rest)
        else if (c =? "-")%char then (true, rest)
        else (false, s) in
      let '(un, err) := ParseUint s base bitSize in
      match err with
      | Some (NumError _ _ ErrSyntax) => (0, Some (NumError "ParseInt" s0 ErrSyntax))
      | Some (errors_New _) => (0, err)
      | _ =>
          let cutoff := uint64 (Z.shiftl 1 (bitSize - 1)) in
          if negb neg && (un >=? cutoff) then
            (int64 (cutoff - 1), Some (NumError "ParseInt" s0 ErrRange))
          else if neg && (un >? cutoff) then
            (int64 (- int64 cutoff), Some (NumError "ParseInt" s0 ErrRange))
          else
            let n := int64 un in
            let n := if neg then int64 (- n) else n in
            (n, None)
      end
  end.

End strconv.

(** ** hex.EncodeToString *)
Module hex.

Definition hextable : string := "0123456789abcdef".

Definition nibble (i : Z) : ascii :=
  match String.get (Z.to_nat i) hextable with
  | Some c => c
  | None => "0"%char
  end.

Fixpoint EncodeToString (src : string) : string :=
  match src with
  | EmptyString => EmptyString
  | String v rest =>
      let b := Z.of_N (N_of_ascii v) in
      String (nibble (Z.shiftr b 4))
        (String (nibble (Z.land b 15)) (EncodeToString rest))
  end.

End hex.

(** ** utils.Int32toIP and net.IP.String *)
Module utils.

(** Modelled from the spec: utils.Int32toIP is not part of the sources
    at hand.  The specification describes it as the standard IPv4
    integer decoding, network byte order, 4 octets: the 32 bits of
    the argument, most significant octet first. *)
Definition Int32toIP (i32 : Z) : list Z :=
  let u := uint32 i32 in
  [Z.land (Z.shiftr u 24) 255; Z.land (Z.shiftr u 16) 255;
   Z.land (Z.shiftr u 8) 255; Z.land u 255].

Definition itoa (z : Z) : string :=
  NilZero.string_of_uint (N.to_uint (Z.to_N z)).

(** Modelled from the spec: the dotted-decimal text of the octets. *)
Fixpoint IP_String (ip : list Z) : string :=
  match ip with
  | [] => ""
  | [o] => itoa o
  | o :: rest => itoa o +:+ "." +:+ IP_String rest
  end.

End utils.

Example ParseInt_6881 : strconv.ParseInt "6881" 10 64 = (6881, None).
Proof. vm_compute. reflexivity. Qed.

Example ParseInt_minus_one : strconv.ParseInt "-1" 10 64 = (-1, None).
Proof. vm_compute. reflexivity. Qed.

Example ParseInt_min64 :
  strconv.ParseInt "-9223372036854775808" 10 64 = (- 2 ^ 63, None).
Proof. vm_compute. reflexivity. Qed.

Example ParseInt_over64 :
  strconv.ParseInt "9223372036854775808" 10 64
  = (2 ^ 63 - 1, Some (NumError "ParseInt" "9223372036854775808" ErrRange)).
Proof. vm_compute. reflexivity. Qed.

Example ParseInt_abc :
  strconv.ParseInt "abc" 10 64 = (0, Some (NumError "ParseInt" "abc" ErrSyntax)).
Proof. vm_compute. reflexivity. Qed.

Example ParseInt_ip_over32 :
  snd (strconv.ParseInt "3232235777" 10 32)
  = Some (NumError "ParseInt" "3232235777" ErrRange).
Proof. vm_compute. reflexivity. Qed.

Example ParseUint_max :
  strconv.ParseUint "18446744073709551615" 10 64 = (2 ^ 64 - 1, None).
Proof. vm_compute. reflexivity. Qed.

Example ParseUint_over :
  snd (strconv.ParseUint "18446744073709551616" 10 64)
  = Some (NumError "ParseUint" "18446744073709551616" ErrRange).
Proof. vm_compute. reflexivity. Qed.

Example ParseUint_signed :
  snd (strconv.ParseUint "-1" 10 64) = Some (NumError "ParseUint" "-1" ErrSyntax).
Proof. vm_compute. reflexivity. Qed.

Example EncodeToString_AB : hex.EncodeToString "AB" = "4142".
Proof. vm_compute. reflexivity. Qed.

Example Int32toIP_loopback :
  utils.IP_String (utils.Int32toIP (int32 2130706433)) = "127.0.0.1".
Proof. vm_compute. reflexivity. Qed.

(** ** The request, the peer record and the reply *)

(** url.Values: each key maps to the list of its values. *)
Definition Values_Get (v : gmap string (list string)) (key : string) : string :=
  match v !! key with
  | Some (x :: _) => x
  | _ => ""
  end.

(** The parts of http.Request the handler can reach; [URL_Query] is the
    parsed query string, [RemoteAddr] the observed source address. *)
Record Request := {
  Method : string;
  Host : string;
  RemoteAddr : string;
  URL_Query : gmap string (list string)
}.

(** storage.PeerInfo.  Its declaration is not among the sources at hand:
    the fields and their types are those of the composite literal the
    handler builds (lines 138-149). *)
Record PeerInfo := {
  InfoHash : string;
  PeerID : string;
  IP : string;
  Port : Z;
  DC : string;
  BytesUploaded : Z;
  BytesDownloaded : Z;
  BytesLeft : Z;
  Event : string
}.

Record AnnouncerResponse := {
  Interval : Z;
  Peers : list PeerInfo
}.

(** The text handed to http.Error: [err.Error()], or the
    [fmt.Sprintf("%s: %v", msg, err)] of the sampling branch. *)
Inductive Message :=
| err_Error (err : error)
| Sprintf_s_v (msg : string) (err : error).

(** The response writer.  [Header] is the header map the handler
    works on and [body] the bytes the encoder has written; [code] and
    [errorText] record the call to http.Error, its status argument and
    its text, which is written after the body ([None] when http.Error
    is never called).  [sent] is what net/http has put on the wire:
    [None] until the first WriteHeader or Write, then the status and
    the headers as they were at that moment.  They are fixed from then
    on: a later WriteHeader is ignored and a later change of [Header]
    is not sent. *)
Record ResponseWriter := {
  Header : list (string * string);
  code : option Z;
  errorText : option Message;
  body : string;
  sent : option (Z * list (string * string))
}.

Definition newResponseWriter : ResponseWriter :=
  {| Header := []; code := None; errorText := None; body := ""; sent := None |}.

Definition StatusInternalServerError : Z := 500.

Definition Header_Set (key value : string) (w : ResponseWriter) : ResponseWriter :=
  {| Header := (key, value) :: filter (fun kv => kv.1 ≠ key) (Header w);
     code := code w; errorText := errorText w; body := body w; sent := sent w |}.

Definition WriteHeader (status : Z) (w : ResponseWriter) : ResponseWriter :=
  match sent w with
  | Some _ => w
  | None =>
      {| Header := Header w; code := code w; errorText := errorText w;
         body := body w; sent := Some (status, Header w) |}
  end.

(** A Write before any WriteHeader sends the headers with status 200. *)
Definition Write (bytes : string) (w : ResponseWriter) : ResponseWriter :=
  let w := WriteHeader 200 w in
  {| Header := Header w; code := code w; errorText := errorText w;
     body := body w +:+ bytes; sent := sent w |}.

(** bencode.Marshal writes into the writer as it goes: [bytes] is all
    it has written, and it has called Write when that is not empty. *)
Definition Marshal_Write (bytes : string) (w : ResponseWriter) : ResponseWriter :=
  match bytes with
  | EmptyString => w
  | _ => Write bytes w
  end.

(** http.Error sets the two headers, calls WriteHeader with the status
    and writes the text. *)
Definition http_Error (w : ResponseWriter) (msg : Message) (status : Z)
  : ResponseWriter :=
  let w := Header_Set "Content-Type" "text/plain; charset=utf-8" w in
  let w := Header_Set "X-Content-Type-Options" "nosniff" w in
  let w := WriteHeader status w in
  {| Header := Header w; code := Some status; errorText := Some msg;
     body := body w; sent := sent w |}.

(** The status of the reply: the one sent, and 200 when the handler
    returns without having written anything. *)
Definition reply_status (w : ResponseWriter) : Z :=
  match sent w with
  | Some (status, _) => status
  | None => 200
  end.

(** The headers of the reply: those sent, and the header map as it
    stands when the handler returns without having written anything. *)
Definition reply_header (w : ResponseWriter) : list (string * string) :=
  match sent w with
  | Some (_, header) => header
  | None => Header w
  end.

Definition client_error (status : Z) : Prop := 400 <= status < 500.
Definition server_error (status : Z) : Prop := 500 <= status < 600.

(** ** The collaborators

    The datastore and the policy are interfaces, given here with the
    methods the handler calls; [W] is whatever state stands behind
    them.  Each method takes that state and returns it. *)
Record Storage (W : Type) := {
  Update : PeerInfo -> W -> option error * W;
  Read : string -> W -> (list PeerInfo * option error) * W
}.
Arguments Update {W}.
Arguments Read {W}.

(** AssignPeerPriority works on the caller's slice in place: it may
    rewrite the elements, and the slice keeps its length. *)
Record PeerHandoutPolicy (W : Type) := {
  AssignPeerPriority :
    string -> string -> list PeerInfo -> W -> (list PeerInfo * option error) * W;
  SamplePeers : list PeerInfo -> Z -> W -> (list PeerInfo * option error) * W;
  AssignPeerPriority_length :
    forall ip dc peers σ,
      length (AssignPeerPriority ip dc peers σ).1.1 = length peers
}.
Arguments AssignPeerPriority {W}.
Arguments SamplePeers {W}.
Arguments AssignPeerPriority_length {W}.

(** webAppStruct, together with the encoder the handler writes with:
    [bencode_Marshal] gives the bytes written and the error. *)
Record webAppStruct (W : Type) := {
  appCfg_AnnounceInterval : Z;
  datastore : Storage W;
  policy : PeerHandoutPolicy W;
  bencode_Marshal : AnnouncerResponse -> string * option error
}.
Arguments appCfg_AnnounceInterval {W}.
Arguments datastore {W}.
Arguments policy {W}.
Arguments bencode_Marshal {W}.

(** ** Calls made to the collaborators *)
Inductive Call :=
| Call_Update (peer : PeerInfo)
| Call_Read (infoHash : string)
| Call_AssignPeerPriority (ip dc : string) (peers : list PeerInfo)
| Call_SamplePeers (peers : list PeerInfo) (limit : Z).

Inductive Op := Op_Update | Op_Read | Op_AssignPeerPriority | Op_SamplePeers.

Definition op_of (c : Call) : Op :=
  match c with
  | Call_Update _ => Op_Update
  | Call_Read _ => Op_Read
  | Call_AssignPeerPriority _ _ _ => Op_AssignPeerPriority
  | Call_SamplePeers _ _ => Op_SamplePeers
  end.

Global Instance Op_eq_dec : EqDecision Op.
Proof. solve_decision. Defined.

Definition repository_call (c : Call) : bool :=
  match c with Call_Update _ | Call_Read _ => true | _ => false end.

Definition policy_call (c : Call) : bool :=
  match c with Call_AssignPeerPriority _ _ _ | Call_SamplePeers _ _ => true | _ => false end.

(** ** The handler's monad: the collaborators' state and the calls made *)
Section Monad.
Context {W : Type}.

Record St := { world : W; calls : list Call }.

Definition M (A : Type) : Type := St -> A * St.

Definition ret {A} (a : A) : M A := fun s => (a, s).

Definition bind {A B} (m : M A) (k : A -> M B) : M B :=
  fun s => let '(a, s') := m s in k a s'.

(** One call to a collaborator: it is recorded, then run. *)
Definition call {A} (c : Call) (f : W -> A * W) : M A :=
  fun s =>
    let '(a, σ) := f (world s) in
    (a, {| world := σ; calls := calls s ++ [c] |}).

Definition run {A} (m : M A) (σ : W) : A * St :=
  m {| world := σ; calls := [] |}.
End Monad.
Arguments St : clear implicits.
Arguments M : clear implicits.

Notation "x <- m ;; k" := (bind m (fun x => k))
  (at level 100, m at next level, right associativity, only parsing).

(** [if err != nil { reply; return }] followed by the rest. *)
Notation "'unless' e 'is' 'Some' err 'then' r 'otherwise' k" :=
  (match e with Some err => r | None => k end)
  (at level 100, err name, r at next level, k at level 100, only parsing).

(** ** GetAnnounceHandler

    The handler as written, statement by statement.  The log lines, and
    with them FormatRequest, are left out: they write to the log only. *)
Section Handler.
Context {W : Type} (webApp : webAppStruct W).

Definition GetAnnounceHandler (w : ResponseWriter) (r : Request)
  : M W ResponseWriter :=
  let queryValues := URL_Query r in
  let infoHash := hex.EncodeToString (Values_Get queryValues "info_hash") in
  let peerID := hex.EncodeToString (Values_Get queryValues "peer_id") in
  let peerPortStr := Values_Get queryValues "port" in
  let peerIPStr := Values_Get queryValues "ip" in
  let peerDC := Values_Get queryValues "dc" in
  let peerBytesDownloadedStr := Values_Get queryValues "downloaded" in
  let peerBytesUploadedStr := Values_Get queryValues "uploaded" in
  let peerBytesLeftStr := Values_Get queryValues "left" in
  let peerEvent := Values_Get queryValues "event" in

  let '(peerPort, err) := strconv.ParseInt peerPortStr 10 64 in
  unless err is Some err then
    ret (http_Error w (err_Error err) StatusInternalServerError)
  otherwise
  let '(peerIPInt32, err) := strconv.ParseInt peerIPStr 10 32 in
  unless err is Some err then
    ret (http_Error w (err_Error err) StatusInternalServerError)
  otherwise
  let '(peerBytesDownloaded, err) := strconv.ParseInt peerBytesDownloadedStr 10 64 in
  unless err is Some err then
    ret (http_Error w (err_Error err) StatusInternalServerError)
  otherwise
  let '(peerBytesUploaded, err) := strconv.ParseInt peerBytesUploadedStr 10 64 in
  unless err is Some err then
    ret (http_Error w (err_Error err) StatusInternalServerError)
  otherwise
  let '(peerBytesLeft, err) := strconv.ParseUint peerBytesLeftStr 10 64 in
  unless err is Some err then
    ret (http_Error w (err_Error err) StatusInternalServerError)
  otherwise

  let peerIP := utils.IP_String (utils.Int32toIP (int32 peerIPInt32)) in

  let peer := {|
    InfoHash := infoHash;
    PeerID := peerID;
    IP := peerIP;
    Port := peerPort;
    DC := peerDC;
    BytesUploaded := peerBytesUploaded;
    BytesDownloaded := peerBytesDownloaded;
    BytesLeft := int64 peerBytesLeft;
    Event := peerEvent
  |} in

  err <- call (Call_Update peer) (Update (datastore webApp) peer) ;;
  unless err is Some err then
    ret (http_Error w (err_Error err) StatusInternalServerError)
  otherwise

  res <- call (Call_Read infoHash) (Read (datastore webApp) infoHash) ;;
  let '(peerInfos, err) := res in
  unless err is Some err then
    ret (http_Error w (err_Error err) StatusInternalServerError)
  otherwise

  res <- call (Call_AssignPeerPriority peerIP peerDC peerInfos)
                        (AssignPeerPriority (policy webApp) peerIP peerDC peerInfos) ;;
  let '(peerInfos, err) := res in
  unless err is Some err then
    ret (http_Error w (err_Error err) StatusInternalServerError)
  otherwise

  let limit := Z.of_nat (length peerInfos) in
  res <- call (Call_SamplePeers peerInfos limit)
                        (SamplePeers (policy webApp) peerInfos limit) ;;
  let '(peerInfos, err) := res in
  unless err is Some err then
    let msg := "Could not apply peer handout sampling policy" in
    ret (http_Error w (Sprintf_s_v msg err) StatusInternalServerError)
  otherwise

  let w := Header_Set "Content-Type" "text/html; charset=utf-8" w in

  let derefPeerInfos := peerInfos in

  let '(bytes, err) :=
    bencode_Marshal webApp
      {| Interval := appCfg_AnnounceInterval webApp; Peers := derefPeerInfos |} in
  let w := Marshal_Write bytes w in
  unless err is Some err then
    ret (http_Error w (err_Error err) StatusInternalServerError)
  otherwise
  ret w.

End Handler.

(** ** Validation and pipeline, as the handler performs them

    [announce_peer] is the record the handler builds once the five
    numeric fields have parsed, [validation_error] the error of the
    first field that does not; [announce_pipeline] is the handler from
    the call to Update on.  [GetAnnounceHandler_invalid] and
    [GetAnnounceHandler_valid] below tie them to the handler. *)
Inductive NumericField := F_port | F_ip | F_downloaded | F_uploaded | F_left.

Definition parse_field (f : NumericField) (queryValues : gmap string (list string))
  : Z * option error :=
  match f with
  | F_port => strconv.ParseInt (Values_Get queryValues "port") 10 64
  | F_ip => strconv.ParseInt (Values_Get queryValues "ip") 10 32
  | F_downloaded => strconv.ParseInt (Values_Get queryValues "downloaded") 10 64
  | F_uploaded => strconv.ParseInt (Values_Get queryValues "uploaded") 10 64
  | F_left => strconv.ParseUint (Values_Get queryValues "left") 10 64
  end.

Definition well_formed (queryValues : gmap string (list string)) : Prop :=
  forall f, (parse_field f queryValues).2 = None.

Definition malformed (queryValues : gmap string (list string)) : Prop :=
  exists f e, (parse_field f queryValues).2 = Some e.

Definition validation_error (queryValues : gmap string (list string)) : option error :=
  match (parse_field F_port queryValues).2 with
  | Some e => Some e
  | None =>
  match (parse_field F_ip queryValues).2 with
  | Some e => Some e
  | None =>
  match (parse_field F_downloaded queryValues).2 with
  | Some e => Some e
  | None =>
  match (parse_field F_uploaded queryValues).2 with
  | Some e => Some e
  | None => (parse_field F_left queryValues).2
  end end end end.

Definition announce_peer (queryValues : gmap string (list string)) : option PeerInfo :=
  match validation_error queryValues with
  | Some _ => None
  | None =>
      Some {|
        InfoHash := hex.EncodeToString (Values_Get queryValues "info_hash");
        PeerID := hex.EncodeToString (Values_Get queryValues "peer_id");
        IP := utils.IP_String
                (utils.Int32toIP (int32 (parse_field F_ip queryValues).1));
        Port := (parse_field F_port queryValues).1;
        DC := Values_Get queryValues "dc";
        BytesUploaded := (parse_field F_uploaded queryValues).1;
        BytesDownloaded := (parse_field F_downloaded queryValues).1;
        BytesLeft := int64 (parse_field F_left queryValues).1;
        Event := Values_Get queryValues "event"
      |}
  end.

Section Pipeline.
Context {W : Type} (webApp : webAppStruct W).

Definition encode_reply (w : ResponseWriter) (peerInfos : list PeerInfo)
  : ResponseWriter :=
  let w := Header_Set "Content-Type" "text/html; charset=utf-8" w in
  let '(bytes, err) :=
    bencode_Marshal webApp
      {| Interval := appCfg_AnnounceInterval webApp; Peers := peerInfos |} in
  let w := Marshal_Write bytes w in
  match err with
  | Some err => http_Error w (err_Error err) StatusInternalServerError
  | None => w
  end.

Definition announce_pipeline (w : ResponseWriter) (peer : PeerInfo)
  : M W ResponseWriter :=
  err <- call (Call_Update peer) (Update (datastore webApp) peer) ;;
  unless err is Some err then
    ret (http_Error w (err_Error err) StatusInternalServerError)
  otherwise
  res <- call (Call_Read (InfoHash peer)) (Read (datastore webApp) (InfoHash peer)) ;;
  let '(peerInfos, err) := res in
  unless err is Some err then
    ret (http_Error w (err_Error err) StatusInternalServerError)
  otherwise
  res <- call (Call_AssignPeerPriority (IP peer) (DC peer) peerInfos)
           (AssignPeerPriority (policy webApp) (IP peer) (DC peer) peerInfos) ;;
  let '(peerInfos, err) := res in
  unless err is Some err then
    ret (http_Error w (err_Error err) StatusInternalServerError)
  otherwise
  let limit := Z.of_nat (length peerInfos) in
  res <- call (Call_SamplePeers peerInfos limit)
           (SamplePeers (policy webApp) peerInfos limit) ;;
  let '(peerInfos, err) := res in
  unless err is Some err then
    ret (http_Error w
           (Sprintf_s_v "Could not apply peer handout sampling policy" err)
           StatusInternalServerError)
  otherwise
  ret (encode_reply w peerInfos).

(** The runs of the pipeline, one constructor per stage at which it
    can end.  Every run is one of these ([announce_pipeline_run]). *)
Inductive pipeline_run (w : ResponseWriter) (peer : PeerInfo) (σ : W)
  : ResponseWriter * St W -> Prop :=
| Update_fails e σ1 :
    Update (datastore webApp) peer σ = (Some e, σ1) ->
    pipeline_run w peer σ
      (http_Error w (err_Error e) StatusInternalServerError,
       {| world := σ1; calls := [Call_Update peer] |})
| Read_fails σ1 l e σ2 :
    Update (datastore webApp) peer σ = (None, σ1) ->
    Read (datastore webApp) (InfoHash peer) σ1 = ((l, Some e), σ2) ->
    pipeline_run w peer σ
      (http_Error w (err_Error e) StatusInternalServerError,
       {| world := σ2;
          calls := [Call_Update peer; Call_Read (InfoHash peer)] |})
| AssignPeerPriority_fails σ1 l σ2 l' e σ3 :
    Update (datastore webApp) peer σ = (None, σ1) ->
    Read (datastore webApp) (InfoHash peer) σ1 = ((l, None), σ2) ->
    AssignPeerPriority (policy webApp) (IP peer) (DC peer) l σ2
      = ((l', Some e), σ3) ->
    pipeline_run w peer σ
      (http_Error w (err_Error e) StatusInternalServerError,
       {| world := σ3;
          calls := [Call_Update peer; Call_Read (InfoHash peer);
                    Call_AssignPeerPriority (IP peer) (DC peer) l] |})
| SamplePeers_fails σ1 l σ2 l' σ3 l'' e σ4 :
    Update (datastore webApp) peer σ = (None, σ1) ->
    Read (datastore webApp) (InfoHash peer) σ1 = ((l, None), σ2) ->
    AssignPeerPriority (policy webApp) (IP peer) (DC peer) l σ2
      = ((l', None), σ3) ->
    SamplePeers (policy webApp) l' (Z.of_nat (length l')) σ3
      = ((l'', Some e), σ4) ->
    pipeline_run w peer σ
      (http_Error w
         (Sprintf_s_v "Could not apply peer handout sampling policy" e)
         StatusInternalServerError,
       {| world := σ4;
          calls := [Call_Update peer; Call_Read (InfoHash peer);
                    Call_AssignPeerPriority (IP peer) (DC peer) l;
                    Call_SamplePeers l' (Z.of_nat (length l'))] |})
| Sampled σ1 l σ2 l' σ3 l'' σ4 :
    Update (datastore webApp) peer σ = (None, σ1) ->
    Read (datastore webApp) (InfoHash peer) σ1 = ((l, None), σ2) ->
    AssignPeerPriority (policy webApp) (IP peer) (DC peer) l σ2
      = ((l', None), σ3) ->
    SamplePeers (policy webApp) l' (Z.of_nat (length l')) σ3
      = ((l'', None), σ4) ->
    pipeline_run w peer σ
      (encode_reply w l'',
       {| world := σ4;
          calls := [Call_Update peer; Call_Read (InfoHash peer);
                    Call_AssignPeerPriority (IP peer) (DC peer) l;
                    Call_SamplePeers l' (Z.of_nat (length l'))] |}).

End Pipeline.

(** ** Test doubles

    An in-memory datastore and a pass-through policy, each method of
    which can be told to fail; they stand for the collaborators in the
    examples below. *)
Module Fake.

Record Faults := {
  Update_err : option error;
  Read_err : option error;
  AssignPeerPriority_err : option error;
  SamplePeers_err : option error;
  Marshal_err : option error
}.

Definition no_faults : Faults :=
  {| Update_err := None; Read_err := None; AssignPeerPriority_err := None;
     SamplePeers_err := None; Marshal_err := None |}.

Definition same_peer (p q : PeerInfo) : bool :=
  String.eqb (InfoHash p) (InfoHash q) && String.eqb (PeerID p) (PeerID q).

(** An upsert keyed by (InfoHash, PeerID). *)
Definition upsert (p : PeerInfo) (σ : list PeerInfo) : list PeerInfo :=
  if existsb (same_peer p) σ
  then map (fun q => if same_peer p q then p else q) σ
  else σ ++ [p].

Definition storage (f : Faults) : Storage (list PeerInfo) :=
  {| Update := fun p σ =>
       match Update_err f with
       | Some e => (Some e, σ)
       | None => (None, upsert p σ)
       end;
     Read := fun h σ =>
       match Read_err f with
       | Some e => (([], Some e), σ)
       | None => ((List.filter (fun p => String.eqb (InfoHash p) h) σ, None), σ)
       end |}.

Definition handout (f : Faults) : PeerHandoutPolicy (list PeerInfo) :=
  {| AssignPeerPriority := fun ip dc peers σ =>
       ((peers, AssignPeerPriority_err f), σ);
     SamplePeers := fun peers limit σ =>
       match SamplePeers_err f with
       | Some e => (([], Some e), σ)
       | None => ((take (Z.to_nat limit) peers, None), σ)
       end;
     AssignPeerPriority_length := fun _ _ _ _ => eq_refl |}.

(** A stand-in for the encoder: the handler only looks at its error. *)
Definition marshal (f : Faults) (resp : AnnouncerResponse) : string * option error :=
  match Marshal_err f with
  | Some e => ("", Some e)
  | None =>
      ("interval=" +:+ utils.itoa (Interval resp)
         +:+ ";peers=" +:+ utils.itoa (Z.of_nat (length (Peers resp))), None)
  end.

Definition webApp (f : Faults) : webAppStruct (list PeerInfo) :=
  {| appCfg_AnnounceInterval := 30;
     datastore := storage f;
     policy := handout f;
     bencode_Marshal := marshal f |}.

(** A request with the given query parameters. *)
Definition request (params : list (string * string)) : Request :=
  {| Method := "GET"; Host := "tracker"; RemoteAddr := "10.0.0.7:40000";
     URL_Query := list_to_map (map (fun kv => (kv.1, [kv.2])) params) |}.

(** The scenario of the specification. *)
Definition scenario : list (string * string) :=
  [("info_hash", "AB"); ("peer_id", "CD"); ("port", "6881");
   ("ip", "2130706433"); ("downloaded", "0"); ("uploaded", "0");
   ("left", "1000"); ("event", "started")].

Definition with_param (key value : string) (params : list (string * string))
  : list (string * string) :=
  (key, value) :: List.filter (fun kv => negb (String.eqb kv.1 key)) params.

End Fake.

(** ** Facts about the library functions *)

Lemma digits_range base cutoff maxVal s n v :
  0 <= n <= maxVal ->
  strconv.digits base cutoff maxVal s n = (v, None) ->
  0 <= v <= maxVal.
Proof.
  revert n. induction s as [|d s IH]; intros n Hn; simpl.
  - intros [= <-]. exact Hn.
  - destruct (strconv.digit d) as [dv|]; [|discriminate].
    destruct (dv >=? base); [discriminate|].
    destruct (n >=? cutoff); [discriminate|].
    destruct (_ || _) eqn:Hc; [discriminate|].
    apply IH. apply orb_false_iff in Hc as [_ Hc].
    unfold uint64 in *. split; [apply Z.mod_pos_bound|]; lia.
Qed.

Lemma digits_ErrRange base cutoff maxVal s n v :
  strconv.digits base cutoff maxVal s n = (v, Some ErrRange) ->
  v = strconv.maxUint64.
Proof.
  revert n. induction s as [|d s IH]; intros n; simpl; [discriminate|].
  destruct (strconv.digit d) as [dv|]; [|discriminate].
  destruct (dv >=? base); [discriminate|].
  destruct (n >=? cutoff); [congruence|].
  destruct (_ || _); [congruence|]. apply IH.
Qed.

Lemma ParseUint_ErrRange s bitSize v f m :
  strconv.ParseUint s 10 bitSize = (v, Some (NumError f m ErrRange)) ->
  v = strconv.maxUint64.
Proof.
  unfold strconv.ParseUint. destruct s as [|c s]; [discriminate|].
  destruct (strconv.digits _ _ _ _ _) as [n [[]|]] eqn:Hd; try discriminate.
  intros [= <- _ _]. eapply digits_ErrRange, Hd.
Qed.

Lemma ParseUint_range s bitSize v :
  0 <= bitSize ->
  strconv.ParseUint s 10 bitSize = (v, None) ->
  0 <= v <= uint64 (uint64 (Z.shiftl 1 bitSize) - 1).
Proof.
  intros Hb. unfold strconv.ParseUint. destruct s as [|c s]; [discriminate|].
  destruct (strconv.digits _ _ _ _ _) as [n [e|]] eqn:Hd; [discriminate|].
  intros [= <-]. eapply digits_range; [|exact Hd].
  split; [lia|]. unfold uint64. apply Z.mod_pos_bound. lia.
Qed.

Lemma ParseUint_64_range s v :
  strconv.ParseUint s 10 64 = (v, None) -> 0 <= v < 2 ^ 64.
Proof.
  intros H. apply ParseUint_range in H; [|lia].
  change (uint64 (uint64 (Z.shiftl 1 64) - 1)) with (2 ^ 64 - 1) in H. lia.
Qed.

Lemma int64_range z : - 2 ^ 63 <= int64 z < 2 ^ 63.
Proof. unfold int64. pose proof (Z.mod_pos_bound (z + 2 ^ 63) (2 ^ 64)). lia. Qed.

Lemma int64_small z : - 2 ^ 63 <= z < 2 ^ 63 -> int64 z = z.
Proof. intros H. unfold int64. rewrite Z.mod_small; lia. Qed.

Lemma int32_small z : - 2 ^ 31 <= z < 2 ^ 31 -> int32 z = z.
Proof. intros H. unfold int32. rewrite Z.mod_small; lia. Qed.

(** The two's-complement reading of an unsigned value with the top bit set. *)
Lemma int64_of_large u : 2 ^ 63 <= u < 2 ^ 64 -> int64 u = u - 2 ^ 64.
Proof.
  intros H. unfold int64.
  replace (u + 2 ^ 63) with ((u - 2 ^ 63) + 1 * 2 ^ 64) by lia.
  rewrite Z.mod_add by lia. rewrite Z.mod_small; lia.
Qed.

Lemma ParseInt_64_range s v :
  strconv.ParseInt s 10 64 = (v, None) -> - 2 ^ 63 <= v < 2 ^ 63.
Proof.
  unfold strconv.ParseInt. destruct s as [|c s]; [discriminate|].
  destruct (if (c =? "+")%char then _ else _) as [neg s1].
  destruct (strconv.ParseUint s1 10 64) as [un [[f m []|t]|]];
    try discriminate;
    repeat (match goal with |- context [if ?b then _ else _] => destruct b end;
            try discriminate);
    intros [= <-]; apply int64_range.
Qed.

Lemma ParseInt_32_range s v :
  strconv.ParseInt s 10 32 = (v, None) -> - 2 ^ 31 <= v < 2 ^ 31.
Proof.
  unfold strconv.ParseInt. destruct s as [|c s]; [discriminate|].
  destruct (if (c =? "+")%char then _ else _) as [neg s1].
  destruct (strconv.ParseUint s1 10 32) as [un [[f m []|t]|]] eqn:Hu;
    try discriminate.
  - apply ParseUint_ErrRange in Hu. subst un.
    change (uint64 (Z.shiftl 1 (32 - 1))) with (2 ^ 31).
    destruct neg; simpl; discriminate.
  - apply ParseUint_range in Hu; [|lia].
    change (uint64 (uint64 (Z.shiftl 1 32) - 1)) with (2 ^ 32 - 1) in Hu.
    change (uint64 (Z.shiftl 1 (32 - 1))) with (2 ^ 31).
    destruct neg; simpl.
    + destruct (un >? 2 ^ 31) eqn:Hc; [discriminate|].
      intros [= <-]. rewrite (int64_small un) by lia.
      rewrite int64_small; lia.
    + destruct (un >=? 2 ^ 31) eqn:Hc; [discriminate|].
      intros [= <-]. rewrite int64_small; lia.
Qed.

Lemma Values_Get_missing (queryValues : gmap string (list string)) key :
  queryValues !! key = None -> Values_Get queryValues key = "".
Proof. unfold Values_Get. intros ->. reflexivity. Qed.

Lemma Values_Get_insert_ne (queryValues : gmap string (list string)) key key' vs :
  key' <> key ->
  Values_Get (<[key' := vs]> queryValues) key = Values_Get queryValues key.
Proof. intros H. unfold Values_Get. rewrite lookup_insert_ne; done. Qed.

(** ** Facts about the writer *)

Lemma string_app_nil_r (s : string) : s +:+ "" = s.
Proof.
  induction s as [|c s IH]; [done|].
  change (String c (s +:+ "") = String c s). by rewrite IH.
Qed.

Lemma string_app_inv_nil (s t : string) : s +:+ t = s -> t = "".
Proof.
  induction s as [|c s IH]; [done|].
  change (String c (s +:+ t) = String c s -> t = ""). intros [= H]. auto.
Qed.

Lemma WriteHeader_fields status w :
  Header (WriteHeader status w) = Header w /\
  code (WriteHeader status w) = code w /\
  body (WriteHeader status w) = body w.
Proof. unfold WriteHeader. by destruct (sent w). Qed.

Lemma Marshal_Write_fields bytes w :
  Header (Marshal_Write bytes w) = Header w /\
  code (Marshal_Write bytes w) = code w /\
  body (Marshal_Write bytes w) = body w +:+ bytes.
Proof.
  destruct bytes as [|c bytes]; cbn [Marshal_Write].
  - by rewrite string_app_nil_r.
  - unfold Write, WriteHeader. by destruct (sent w).
Qed.

Lemma http_Error_code w msg status : code (http_Error w msg status) = Some status.
Proof. reflexivity. Qed.

Lemma http_Error_body w msg status : body (http_Error w msg status) = body w.
Proof.
  unfold http_Error. cbn [body].
  by rewrite (proj2 (proj2 (WriteHeader_fields _ _))).
Qed.

(** On a writer that has sent nothing, http.Error decides the reply:
    its status, and the two headers it sets. *)
Lemma http_Error_fresh w msg status :
  sent w = None ->
  reply_status (http_Error w msg status) = status /\
  reply_header (http_Error w msg status)
  = Header (http_Error w msg status).
Proof.
  intros Hw. unfold http_Error, reply_status, reply_header, WriteHeader.
  cbn [sent Header_Set]. rewrite Hw. cbn [sent Header_Set]. rewrite ?Hw.
  split; reflexivity.
Qed.

(** Once something is sent, http.Error changes neither the status nor
    the headers of the reply. *)
Lemma http_Error_sent w msg status st header :
  sent w = Some (st, header) ->
  reply_status (http_Error w msg status) = st /\
  reply_header (http_Error w msg status) = header.
Proof.
  intros Hw. unfold http_Error, reply_status, reply_header, WriteHeader.
  cbn [sent Header_Set]. rewrite Hw. cbn [sent Header_Set]. rewrite ?Hw.
  split; reflexivity.
Qed.

Lemma Marshal_Write_sent bytes w :
  sent w = None -> bytes <> "" ->
  sent (Marshal_Write bytes w) = Some (200, Header w).
Proof.
  intros Hw Hb. destruct bytes as [|c bytes]; [done|].
  unfold Marshal_Write, Write, WriteHeader. by rewrite Hw.
Qed.

(** The status of the reply of the encoding stage, on a writer that has
    sent nothing: 200 as soon as the encoder has written, also when it
    fails afterwards, and the 500 of http.Error only when it fails
    without having written. *)
Lemma encode_reply_status {W} (webApp : webAppStruct W) w peerInfos bytes err :
  sent w = None ->
  bencode_Marshal webApp
    {| Interval := appCfg_AnnounceInterval webApp; Peers := peerInfos |} = (bytes, err) ->
  reply_status (encode_reply webApp w peerInfos)
  = match err, bytes with
    | Some _, EmptyString => 500
    | _, _ => 200
    end.
Proof.
  intros Hw HM. unfold encode_reply. rewrite HM.
  set (w1 := Header_Set "Content-Type" "text/html; charset=utf-8" w).
  assert (Hw1 : sent w1 = None) by exact Hw.
  destruct bytes as [|c bytes].
  - cbn [Marshal_Write]. destruct err as [e|].
    + by apply http_Error_fresh.
    + unfold reply_status. by rewrite Hw1.
  - pose proof (Marshal_Write_sent (String c bytes) w1 Hw1 ltac:(done)) as Hs.
    destruct err as [e|].
    + by destruct (http_Error_sent _ (err_Error e) StatusInternalServerError _ _ Hs).
    + unfold reply_status. by rewrite Hs.
Qed.

Lemma encode_reply_fields {W} (webApp : webAppStruct W) w peerInfos bytes err :
  bencode_Marshal webApp
    {| Interval := appCfg_AnnounceInterval webApp; Peers := peerInfos |} = (bytes, err) ->
  body (encode_reply webApp w peerInfos) = body w +:+ bytes /\
  code (encode_reply webApp w peerInfos)
  = (if err is Some _ then Some StatusInternalServerError else code w).
Proof.
  intros HM. unfold encode_reply. rewrite HM.
  destruct (Marshal_Write_fields bytes
              (Header_Set "Content-Type" "text/html; charset=utf-8" w))
    as (_ & HC & HB).
  destruct err; [rewrite http_Error_body|]; done.
Qed.

(** ** The handler, split at the end of validation *)

Lemma malformed_validation_error queryValues :
  malformed queryValues -> exists e, validation_error queryValues = Some e.
Proof.
  intros (f & e & Hf). unfold validation_error.
  destruct (parse_field F_port queryValues).2 eqn:H1; [eauto|].
  destruct (parse_field F_ip queryValues).2 eqn:H2; [eauto|].
  destruct (parse_field F_downloaded queryValues).2 eqn:H3; [eauto|].
  destruct (parse_field F_uploaded queryValues).2 eqn:H4; [eauto|].
  destruct f; try congruence. eauto.
Qed.

Lemma validation_error_malformed queryValues e :
  validation_error queryValues = Some e -> malformed queryValues.
Proof.
  unfold validation_error, malformed.
  destruct (parse_field F_port queryValues).2 eqn:H1; [eauto|].
  destruct (parse_field F_ip queryValues).2 eqn:H2; [eauto|].
  destruct (parse_field F_downloaded queryValues).2 eqn:H3; [eauto|].
  destruct (parse_field F_uploaded queryValues).2 eqn:H4; [eauto|].
  eauto.
Qed.

Lemma well_formed_validation_error queryValues :
  well_formed queryValues <-> validation_error queryValues = None.
Proof.
  split.
  - intros H. unfold validation_error. by rewrite !H.
  - intros H f. destruct (parse_field f queryValues).2 eqn:Hf; [|done].
    destruct (malformed_validation_error queryValues) as [e' He']; [|congruence].
    by exists f, e.
Qed.

Lemma well_formed_announce_peer queryValues :
  well_formed queryValues -> exists peer, announce_peer queryValues = Some peer.
Proof.
  intros H%well_formed_validation_error. unfold announce_peer. rewrite H. eauto.
Qed.

Lemma announce_peer_well_formed queryValues peer :
  announce_peer queryValues = Some peer -> well_formed queryValues.
Proof.
  unfold announce_peer. intros H. apply well_formed_validation_error.
  by destruct (validation_error queryValues).
Qed.

Lemma malformed_announce_peer queryValues :
  malformed queryValues -> announce_peer queryValues = None.
Proof.
  intros [e He]%malformed_validation_error. unfold announce_peer. by rewrite He.
Qed.

Section Bridge.
Context {W : Type} (webApp : webAppStruct W).

Ltac parse_step :=
  match goal with
  | |- context [strconv.ParseInt ?s ?b ?n] =>
      destruct (strconv.ParseInt s b n) as [? [?|]]; simpl
  | |- context [strconv.ParseUint ?s ?b ?n] =>
      destruct (strconv.ParseUint s b n) as [? [?|]]; simpl
  end.

(** Lines 101-134: the first numeric field that does not parse ends
    the handler with http.Error, before any call. *)
Lemma GetAnnounceHandler_invalid w r e s :
  validation_error (URL_Query r) = Some e ->
  GetAnnounceHandler webApp w r s
  = (http_Error w (err_Error e) StatusInternalServerError, s).
Proof.
  unfold validation_error, parse_field, GetAnnounceHandler.
  repeat (parse_step; try (intros [= <-]; reflexivity)).
Qed.

(** Lines 136-207: with the five fields parsed, the handler is the
    pipeline run on the record it has built. *)
Lemma GetAnnounceHandler_valid w r peer s :
  announce_peer (URL_Query r) = Some peer ->
  GetAnnounceHandler webApp w r s = announce_pipeline webApp w peer s.
Proof.
  unfold announce_peer, validation_error, parse_field, GetAnnounceHandler.
  repeat (parse_step; try discriminate).
  intros [= <-]. unfold announce_pipeline, bind, call, encode_reply; simpl.
  repeat (match goal with
          | |- context [let '(_, _) := ?x in _] => destruct x; simpl
          | |- context [match ?x with Some _ => _ | None => _ end] =>
              destruct x; simpl
          end; try reflexivity).
Qed.

Lemma announce_pipeline_run w peer σ :
  pipeline_run webApp w peer σ (run (announce_pipeline webApp w peer) σ).
Proof.
  unfold run, announce_pipeline, bind, call, ret; simpl.
  destruct (Update _ peer σ) as [[e|] σ1] eqn:HU; simpl.
  { by apply Update_fails. }
  destruct (Read _ (InfoHash peer) σ1) as [[l [e|]] σ2] eqn:HR; simpl.
  { by eapply Read_fails. }
  destruct (AssignPeerPriority _ (IP peer) (DC peer) l σ2)
    as [[l' [e|]] σ3] eqn:HA; simpl.
  { by eapply AssignPeerPriority_fails. }
  destruct (SamplePeers _ l' (Z.of_nat (length l')) σ3)
    as [[l'' [e|]] σ4] eqn:HS; simpl.
  { by eapply SamplePeers_fails. }
  by eapply Sampled.
Qed.

Lemma GetAnnounceHandler_run w r peer σ :
  announce_peer (URL_Query r) = Some peer ->
  pipeline_run webApp w peer σ (run (GetAnnounceHandler webApp w r) σ).
Proof.
  intros H. unfold run. rewrite (GetAnnounceHandler_valid _ _ peer) by done.
  apply announce_pipeline_run.
Qed.

Lemma GetAnnounceHandler_malformed w r σ :
  malformed (URL_Query r) ->
  exists e,
    validation_error (URL_Query r) = Some e /\
    run (GetAnnounceHandler webApp w r) σ
    = (http_Error w (err_Error e) StatusInternalServerError,
       {| world := σ; calls := [] |}).
Proof.
  intros [e He]%malformed_validation_error. exists e. split; [done|].
  unfold run. by rewrite (GetAnnounceHandler_invalid _ _ e).
Qed.

(** The handler reads the request through its query values only. *)
Lemma GetAnnounceHandler_query w r r' :
  URL_Query r = URL_Query r' ->
  GetAnnounceHandler webApp w r = GetAnnounceHandler webApp w r'.
Proof. unfold GetAnnounceHandler. by intros ->. Qed.

(** Whatever stage fails, the reply of a run of the pipeline that
    called http.Error carries status 500. *)
Lemma pipeline_run_code w peer σ res :
  code w = None ->
  pipeline_run webApp w peer σ res ->
  code res.1 = None \/ code res.1 = Some StatusInternalServerError.
Proof.
  intros Hw H. destruct H; simpl; auto.
  unfold encode_reply. destruct (bencode_Marshal _ _) as [bytes [e|]]; simpl; auto.
  left. destruct (Marshal_Write_fields bytes
                    (Header_Set "Content-Type" "text/html; charset=utf-8" w))
    as (_ & -> & _). exact Hw.
Qed.
End Bridge.

(** ** Replies to malformed requests *)

(** C1 (as the code has it).  When one of port, ip, downloaded, uploaded
    or left does not parse, the handler calls http.Error with the parse
    error as text and with StatusInternalServerError: the status it
    answers is 500, a server error, and not a status of the 4xx class. *)
Theorem C1_malformed_numeric_field_status {W} (webApp : webAppStruct W) w r σ :
  malformed (URL_Query r) ->
  let w' := (run (GetAnnounceHandler webApp w r) σ).1 in
  exists e status,
    validation_error (URL_Query r) = Some e /\
    w' = http_Error w (err_Error e) status /\
    code w' = Some status /\
    status = 500 /\ server_error status /\ ~ client_error status.
Proof.
  intros H. destruct (GetAnnounceHandler_malformed webApp w r σ H) as (e & He & Hr).
  exists e, StatusInternalServerError. rewrite Hr. simpl.
  unfold server_error, client_error, StatusInternalServerError.
  repeat split; try done; lia.
Qed.

Lemma C1_port_abc_status :
  let r := Fake.request (Fake.with_param "port" "abc" Fake.scenario) in
  let w' :=
    (run (GetAnnounceHandler (Fake.webApp Fake.no_faults) newResponseWriter r) []).1 in
  malformed (URL_Query r) /\
  exists e status,
    validation_error (URL_Query r) = Some e /\
    w' = http_Error newResponseWriter (err_Error e) status /\
    code w' = Some status /\
    status = 500 /\ server_error status /\ ~ client_error status.
Proof.
  assert (Hm : malformed
                 (URL_Query (Fake.request (Fake.with_param "port" "abc" Fake.scenario)))).
  { exists F_port, (NumError "ParseInt" "abc" ErrSyntax). vm_compute. reflexivity. }
  split; [exact Hm|].
  exact (C1_malformed_numeric_field_status
           (Fake.webApp Fake.no_faults) newResponseWriter _ [] Hm).
Defined.

(** Nothing is written before a parse failure is answered: the reply
    to port=abc is the 500 of http.Error. *)
Example port_abc_reply_status :
  reply_status
    (run (GetAnnounceHandler (Fake.webApp Fake.no_faults) newResponseWriter
            (Fake.request (Fake.with_param "port" "abc" Fake.scenario))) []).1
  = 500.
Proof. vm_compute. reflexivity. Qed.

(** The other half of the failure mapping, on a writer that has sent
    nothing: when the handler ends with http.Error and the encoder has
    not written (the body is as it was), the reply is 500.  That is the
    case of every failure of the datastore and of the policy, which
    come before the encoder is called. *)
Lemma collaborator_failure_status {W} (webApp : webAppStruct W) w r σ :
  code w = None -> sent w = None ->
  well_formed (URL_Query r) ->
  let res := run (GetAnnounceHandler webApp w r) σ in
  ((length (calls res.2) < 4)%nat -> code res.1 <> None /\ body res.1 = body w) /\
  (code res.1 <> None -> body res.1 = body w ->
   reply_status res.1 = 500 /\ server_error 500).
Proof.
  intros Hc Hw [peer Hp]%well_formed_announce_peer res.
  assert (Hs : server_error 500) by (unfold server_error; lia).
  pose proof (GetAnnounceHandler_run webApp w r peer σ Hp) as Hrun. fold res in Hrun.
  destruct Hrun as [e σ1 HU | σ1 l e σ2 HU HR | σ1 l σ2 l' e σ3 HU HR HA
                   | σ1 l σ2 l' σ3 l'' e σ4 HU HR HA HS
                   | σ1 l σ2 l' σ3 l'' σ4 HU HR HA HS];
    cbn [fst snd calls];
    try (split; [intros _; split; [done | apply http_Error_body]
                | intros _ _; split; [by apply http_Error_fresh | exact Hs]]).
  split; [simpl; lia|].
  destruct (bencode_Marshal webApp
                {| Interval := appCfg_AnnounceInterval webApp; Peers := l'' |})
    as [bytes err] eqn:HM.
  destruct (encode_reply_fields webApp w l'' bytes err HM) as [Hb Hcode].
  rewrite Hb, Hcode, (encode_reply_status webApp w l'' bytes err Hw HM).
  destruct err as [e|]; [|by rewrite Hc].
  intros _ Heq%string_app_inv_nil. subst bytes. done.
Qed.

(** C2.  When one of the five numeric fields does not parse, the run
    ends in validation: the reply is the http.Error of the parse error,
    no call to Update, Read, AssignPeerPriority or SamplePeers is made,
    the state behind the collaborators is untouched, and no peer record
    is built. *)
Theorem C2_malformed_numeric_field_no_calls {W} (webApp : webAppStruct W) w r σ :
  malformed (URL_Query r) ->
  let res := run (GetAnnounceHandler webApp w r) σ in
  calls res.2 = [] /\
  world res.2 = σ /\
  announce_peer (URL_Query r) = None /\
  (forall c, In c (calls res.2) -> repository_call c = false /\ policy_call c = false) /\
  exists e, res.1 = http_Error w (err_Error e) StatusInternalServerError.
Proof.
  intros H. destruct (GetAnnounceHandler_malformed webApp w r σ H) as (e & He & Hr).
  simpl. rewrite Hr. simpl. repeat split; try done.
  - by apply malformed_announce_peer.
  - by exists e.
Qed.

Lemma C2_left_not_a_number :
  let r := Fake.request (Fake.with_param "left" "1e3" Fake.scenario) in
  let res := run (GetAnnounceHandler (Fake.webApp Fake.no_faults) newResponseWriter r) [] in
  malformed (URL_Query r) /\
  calls res.2 = [] /\
  world res.2 = [] /\
  announce_peer (URL_Query r) = None /\
  (forall c, In c (calls res.2) -> repository_call c = false /\ policy_call c = false) /\
  exists e, res.1 = http_Error newResponseWriter (err_Error e) StatusInternalServerError.
Proof.
  assert (Hm : malformed
                 (URL_Query (Fake.request (Fake.with_param "left" "1e3" Fake.scenario)))).
  { exists F_left, (NumError "ParseUint" "1e3" ErrSyntax). vm_compute. reflexivity. }
  split; [exact Hm|].
  exact (C2_malformed_numeric_field_no_calls
           (Fake.webApp Fake.no_faults) newResponseWriter _ [] Hm).
Defined.

(** ** The record handed to Update *)

(** A well-formed request gets as far as Update, with the record of
    [announce_peer]. *)
Lemma well_formed_first_call {W} (webApp : webAppStruct W) w r σ :
  well_formed (URL_Query r) ->
  exists peer rest,
    announce_peer (URL_Query r) = Some peer /\
    calls (run (GetAnnounceHandler webApp w r) σ).2 = Call_Update peer :: rest /\
    Forall (fun c => op_of c <> Op_Update) rest.
Proof.
  intros [peer Hp]%well_formed_announce_peer. exists peer.
  destruct (GetAnnounceHandler_run webApp w r peer σ Hp); simpl;
    eexists; (split; [done|]); (split; [reflexivity|]);
    repeat constructor; discriminate.
Qed.

(** Update is called with no other record than that of [announce_peer]. *)
Lemma Update_call_announce_peer {W} (webApp : webAppStruct W) w r σ peer :
  In (Call_Update peer) (calls (run (GetAnnounceHandler webApp w r) σ).2) ->
  announce_peer (URL_Query r) = Some peer.
Proof.
  destruct (validation_error (URL_Query r)) as [e|] eqn:He.
  - unfold run. rewrite (GetAnnounceHandler_invalid _ _ _ e) by done. simpl. tauto.
  - apply well_formed_validation_error in He.
    destruct (well_formed_first_call webApp w r σ He) as (p & rest & Hp & Hc & Hrest).
    rewrite Hc. simpl. intros [[= <-]|Hin]; [done|].
    rewrite Forall_forall in Hrest. apply list_elem_of_In, Hrest in Hin.
    by destruct Hin.
Qed.

(** C3.  When left parses as an unsigned 64-bit value [u] above 2^63-1,
    the record handed to Update has BytesLeft = u - 2^64: the signed
    integer with the same 64 bits.  The value is negative, it is not
    clamped to 2^63-1, and the request is not refused. *)
Theorem C3_left_narrowing {W} (webApp : webAppStruct W) w r σ u :
  well_formed (URL_Query r) ->
  strconv.ParseUint (Values_Get (URL_Query r) "left") 10 64 = (u, None) ->
  2 ^ 63 - 1 < u ->
  exists peer rest,
    calls (run (GetAnnounceHandler webApp w r) σ).2 = Call_Update peer :: rest /\
    BytesLeft peer = u - 2 ^ 64 /\
    uint64 (BytesLeft peer) = u /\
    - 2 ^ 63 <= BytesLeft peer < 0 /\
    BytesLeft peer <> 2 ^ 63 - 1.
Proof.
  intros Hwf Hu Hlarge.
  destruct (well_formed_first_call webApp w r σ Hwf) as (peer & rest & Hp & Hc & _).
  exists peer, rest. split; [exact Hc|].
  pose proof (ParseUint_64_range _ _ Hu) as Hr.
  assert (HB : BytesLeft peer = u - 2 ^ 64).
  { unfold announce_peer in Hp.
    destruct (validation_error (URL_Query r)); [discriminate|].
    injection Hp as <-. simpl. rewrite Hu. simpl. apply int64_of_large. lia. }
  rewrite HB. repeat split; try lia.
  unfold uint64. replace (u - 2 ^ 64) with (u + (-1) * 2 ^ 64) by lia.
  rewrite Z.mod_add by lia. apply Z.mod_small. lia.
Qed.

Lemma C3_left_max :
  let r := Fake.request (Fake.with_param "left" "18446744073709551615" Fake.scenario) in
  exists peer rest,
    calls (run (GetAnnounceHandler (Fake.webApp Fake.no_faults) newResponseWriter r) []).2
    = Call_Update peer :: rest /\
    BytesLeft peer = (2 ^ 64 - 1) - 2 ^ 64 /\
    uint64 (BytesLeft peer) = 2 ^ 64 - 1 /\
    - 2 ^ 63 <= BytesLeft peer < 0 /\
    BytesLeft peer <> 2 ^ 63 - 1.
Proof.
  refine (C3_left_narrowing (Fake.webApp Fake.no_faults) newResponseWriter
            (Fake.request (Fake.with_param "left" "18446744073709551615" Fake.scenario))
            [] (2 ^ 64 - 1) _ _ _).
  - intros []; vm_compute; reflexivity.
  - vm_compute. reflexivity.
  - lia.
Defined.

(** ** The order of the calls *)

(** The operations of a run are an initial part of
    Update, Read, AssignPeerPriority, SamplePeers. *)
Lemma pipeline_run_ops {W} (webApp : webAppStruct W) w peer σ res :
  pipeline_run webApp w peer σ res ->
  exists n, (1 <= n <= 4)%nat /\
    map op_of (calls res.2)
    = take n [Op_Update; Op_Read; Op_AssignPeerPriority; Op_SamplePeers].
Proof.
  intros []; simpl;
    [exists 1%nat | exists 2%nat | exists 3%nat | exists 4%nat | exists 4%nat];
    (split; [lia | reflexivity]).
Qed.

(** C4.  In the run of a well-formed request Update is called exactly
    once; a call to Read comes after the call to Update, and a call to
    SamplePeers after a call to AssignPeerPriority; and when Update
    succeeds, Read is the next call. *)
Theorem C4_call_order {W} (webApp : webAppStruct W) w r σ :
  well_formed (URL_Query r) ->
  let ops := map op_of (calls (run (GetAnnounceHandler webApp w r) σ).2) in
  count_occ Op_eq_dec ops Op_Update = 1%nat /\
  (forall i, ops !! i = Some Op_Read ->
             exists j, (j < i)%nat /\ ops !! j = Some Op_Update) /\
  (forall i, ops !! i = Some Op_SamplePeers ->
             exists j, (j < i)%nat /\ ops !! j = Some Op_AssignPeerPriority) /\
  (forall peer σ1,
      announce_peer (URL_Query r) = Some peer ->
      Update (datastore webApp) peer σ = (None, σ1) ->
      ops !! 0%nat = Some Op_Update /\ ops !! 1%nat = Some Op_Read).
Proof.
  intros Hwf ops.
  destruct (well_formed_announce_peer _ Hwf) as [peer Hp].
  pose proof (GetAnnounceHandler_run webApp w r peer σ Hp) as Hrun.
  destruct (pipeline_run_ops webApp w peer σ _ Hrun) as (n & Hn & Hops).
  fold ops in Hops.
  split; [|split; [|split]].
  - rewrite Hops. destruct n as [|[|[|[|[|]]]]]; try lia; reflexivity.
  - intros i. rewrite Hops.
    destruct n as [|[|[|[|[|]]]]]; try lia;
      destruct i as [|[|[|[|]]]]; simpl; try discriminate;
      intros _; exists 0%nat; (split; [lia | reflexivity]).
  - intros i. rewrite Hops.
    destruct n as [|[|[|[|[|]]]]]; try lia;
      destruct i as [|[|[|[|]]]]; simpl; try discriminate;
      intros _; exists 2%nat; (split; [lia | reflexivity]).
  - intros peer' σ1 Hp' HU. assert (peer' = peer) as -> by congruence.
    subst ops. destruct Hrun; simpl; try (split; reflexivity). congruence.
Qed.

Lemma C4_scenario_call_order :
  let r := Fake.request Fake.scenario in
  let ops := map op_of
               (calls (run (GetAnnounceHandler (Fake.webApp Fake.no_faults)
                              newResponseWriter r) []).2) in
  count_occ Op_eq_dec ops Op_Update = 1%nat /\
  (forall i, ops !! i = Some Op_Read ->
             exists j, (j < i)%nat /\ ops !! j = Some Op_Update) /\
  (forall i, ops !! i = Some Op_SamplePeers ->
             exists j, (j < i)%nat /\ ops !! j = Some Op_AssignPeerPriority) /\
  (forall peer σ1,
      announce_peer (URL_Query r) = Some peer ->
      Update (datastore (Fake.webApp Fake.no_faults)) peer [] = (None, σ1) ->
      ops !! 0%nat = Some Op_Update /\ ops !! 1%nat = Some Op_Read).
Proof.
  refine (C4_call_order (Fake.webApp Fake.no_faults) newResponseWriter
            (Fake.request Fake.scenario) [] _).
  intros []; vm_compute; reflexivity.
Defined.

(** The run of the scenario of the specification, with the in-memory
    datastore: all four calls, in order, and the record of 127.0.0.1. *)
Example scenario_calls :
  map op_of
    (calls (run (GetAnnounceHandler (Fake.webApp Fake.no_faults) newResponseWriter
                   (Fake.request Fake.scenario)) []).2)
  = [Op_Update; Op_Read; Op_AssignPeerPriority; Op_SamplePeers].
Proof. vm_compute. reflexivity. Qed.

Example scenario_record :
  world (run (GetAnnounceHandler (Fake.webApp Fake.no_faults) newResponseWriter
                (Fake.request Fake.scenario)) []).2
  = [{| InfoHash := "4142"; PeerID := "4344"; IP := "127.0.0.1"; Port := 6881;
        DC := ""; BytesUploaded := 0; BytesDownloaded := 0; BytesLeft := 1000;
        Event := "started" |}].
Proof. vm_compute. reflexivity. Qed.

(** ** The port and the address *)

(** A request is refused in validation when the handler answers with
    http.Error before any call to a collaborator. *)
Definition refused_in_validation {W} (res : ResponseWriter * St W) : Prop :=
  calls res.2 = [] /\ is_Some (code res.1).

(** C6 (as stated) fails: a port of -1 parses, the request is not
    refused, and Update receives a record with Port = -1. *)
Lemma C6_negative_port_not_refused :
  ~ (forall r n,
        strconv.ParseInt (Values_Get (URL_Query r) "port") 10 64 = (n, None) ->
        n < 0 ->
        refused_in_validation
          (run (GetAnnounceHandler (Fake.webApp Fake.no_faults) newResponseWriter r) [])).
Proof.
  intros H.
  specialize (H (Fake.request (Fake.with_param "port" "-1" Fake.scenario)) (-1)).
  destruct H as [Hcalls _]; [vm_compute; reflexivity | lia |].
  vm_compute in Hcalls. discriminate.
Qed.

Example negative_port_record :
  world (run (GetAnnounceHandler (Fake.webApp Fake.no_faults) newResponseWriter
                (Fake.request (Fake.with_param "port" "-1" Fake.scenario))) []).2
  = [{| InfoHash := "4142"; PeerID := "4344"; IP := "127.0.0.1"; Port := -1;
        DC := ""; BytesUploaded := 0; BytesDownloaded := 0; BytesLeft := 1000;
        Event := "started" |}].
Proof. vm_compute. reflexivity. Qed.

(** C6 (amended).  The port is accepted exactly when it parses as a
    signed 64-bit integer.  A port that does not parse refuses the
    request in validation; a record reaches Update only with a port
    that parsed, which lies in -2^63 .. 2^63-1; and when the other
    fields parse too, Update receives the record with the parsed port,
    whatever its sign. *)
Theorem C6_port_signed_64 {W} (webApp : webAppStruct W) w r σ :
  let port := strconv.ParseInt (Values_Get (URL_Query r) "port") 10 64 in
  let res := run (GetAnnounceHandler webApp w r) σ in
  (forall e, port.2 = Some e ->
             refused_in_validation res /\
             res.1 = http_Error w (err_Error e) StatusInternalServerError) /\
  (forall peer, In (Call_Update peer) (calls res.2) ->
                port = (Port peer, None) /\ - 2 ^ 63 <= Port peer < 2 ^ 63) /\
  (well_formed (URL_Query r) ->
   exists peer rest,
     calls res.2 = Call_Update peer :: rest /\ port = (Port peer, None)).
Proof.
  intros port res.
  assert (Hport : forall peer, announce_peer (URL_Query r) = Some peer ->
                               port = (Port peer, None)).
  { intros peer Hp. pose proof (announce_peer_well_formed _ _ Hp F_port) as H1.
    unfold announce_peer in Hp.
    destruct (validation_error (URL_Query r)); [discriminate|].
    injection Hp as <-. simpl in *. subst port.
    by destruct (strconv.ParseInt _ _ _) as [v o]; simpl in *; subst. }
  split; [|split].
  - intros e He. subst res. unfold run.
    rewrite (GetAnnounceHandler_invalid _ _ _ e).
    + simpl. repeat split; eauto.
    + unfold validation_error. simpl. fold port. by rewrite He.
  - intros peer Hin%Update_call_announce_peer. apply Hport in Hin as Hp.
    split; [done|]. by apply ParseInt_64_range in Hp.
  - intros Hwf.
    destruct (well_formed_first_call webApp w r σ Hwf) as (peer & rest & Hp & Hc & _).
    exists peer, rest. split; [done|]. by apply Hport.
Qed.

Lemma C6_port_minus_one :
  let r := Fake.request (Fake.with_param "port" "-1" Fake.scenario) in
  exists peer rest,
    calls (run (GetAnnounceHandler (Fake.webApp Fake.no_faults) newResponseWriter r) []).2
    = Call_Update peer :: rest /\
    strconv.ParseInt (Values_Get (URL_Query r) "port") 10 64 = (Port peer, None).
Proof.
  refine (proj2 (proj2
            (C6_port_signed_64 (Fake.webApp Fake.no_faults) newResponseWriter
               (Fake.request (Fake.with_param "port" "-1" Fake.scenario)) [])) _).
  intros []; vm_compute; reflexivity.
Defined.

(** The four octets of [utils.Int32toIP], most significant first. *)
Lemma Int32toIP_octets n :
  exists o1 o2 o3 o4,
    utils.Int32toIP n = [o1; o2; o3; o4] /\
    (0 <= o1 < 256 /\ 0 <= o2 < 256 /\ 0 <= o3 < 256 /\ 0 <= o4 < 256) /\
    uint32 n = o1 * 2 ^ 24 + o2 * 2 ^ 16 + o3 * 2 ^ 8 + o4.
Proof.
  unfold utils.Int32toIP. do 4 eexists. split; [reflexivity|].
  change 255 with (Z.ones 8). rewrite !Z.land_ones, !Z.shiftr_div_pow2 by lia.
  assert (Hu : 0 <= uint32 n < 2 ^ 32) by (apply Z.mod_pos_bound; lia).
  generalize dependent (uint32 n). intros u Hu.
  change (2 ^ 32) with 4294967296 in Hu.
  change (2 ^ 24) with 16777216. change (2 ^ 16) with 65536. change (2 ^ 8) with 256.
  Z.div_mod_to_equations. lia.
Qed.

Definition with_RemoteAddr (addr : string) (r : Request) : Request :=
  {| Method := Method r; Host := Host r; RemoteAddr := addr;
     URL_Query := URL_Query r |}.

(** C7.  A record reaches Update only when ip parsed as a signed 32-bit
    integer [n], and its IP is then the dotted-decimal text of the four
    octets of [n], most significant first.  An ip that does not parse
    refuses the request in validation; the observed source address
    plays no part in the run. *)
Theorem C7_ip_decoding {W} (webApp : webAppStruct W) w r σ :
  let ip := strconv.ParseInt (Values_Get (URL_Query r) "ip") 10 32 in
  let res := run (GetAnnounceHandler webApp w r) σ in
  (forall peer, In (Call_Update peer) (calls res.2) ->
     exists n o1 o2 o3 o4,
       ip = (n, None) /\ - 2 ^ 31 <= n < 2 ^ 31 /\
       (0 <= o1 < 256 /\ 0 <= o2 < 256 /\ 0 <= o3 < 256 /\ 0 <= o4 < 256) /\
       n mod 2 ^ 32 = o1 * 2 ^ 24 + o2 * 2 ^ 16 + o3 * 2 ^ 8 + o4 /\
       IP peer = utils.itoa o1 +:+ "." +:+ utils.itoa o2 +:+ "."
                   +:+ utils.itoa o3 +:+ "." +:+ utils.itoa o4) /\
  (forall e, ip.2 = Some e ->
     refused_in_validation res /\ world res.2 = σ /\
     exists e', res.1 = http_Error w (err_Error e') StatusInternalServerError) /\
  (forall addr,
     run (GetAnnounceHandler webApp w (with_RemoteAddr addr r)) σ = res).
Proof.
  intros ip res. split; [|split].
  - intros peer Hp%Update_call_announce_peer.
    pose proof (announce_peer_well_formed _ _ Hp F_ip) as H1.
    unfold announce_peer in Hp.
    destruct (validation_error (URL_Query r)); [discriminate|].
    injection Hp as <-. simpl in *. fold ip in H1 |- *.
    destruct ip as [n o] eqn:Hip. simpl in *. subst o.
    pose proof (ParseInt_32_range _ _ Hip) as Hn.
    rewrite (int32_small n Hn).
    destruct (Int32toIP_octets n) as (o1 & o2 & o3 & o4 & Ho & Hb & Hsum).
    exists n, o1, o2, o3, o4. unfold utils.Int32toIP in Ho.
    injection Ho as -> -> -> ->. repeat split; try tauto; try lia; exact Hsum.
  - intros e He.
    assert (Hm : malformed (URL_Query r)) by (by exists F_ip, e).
    destruct (GetAnnounceHandler_malformed webApp w r σ Hm) as (e' & _ & Hr).
    subst res. rewrite Hr. unfold refused_in_validation. simpl. eauto.
  - intros addr. subst res. unfold run.
    by rewrite (GetAnnounceHandler_query webApp w (with_RemoteAddr addr r) r).
Qed.

Lemma C7_loopback :
  let r := Fake.request Fake.scenario in
  exists n o1 o2 o3 o4,
    strconv.ParseInt (Values_Get (URL_Query r) "ip") 10 32 = (n, None) /\
    - 2 ^ 31 <= n < 2 ^ 31 /\
    (0 <= o1 < 256 /\ 0 <= o2 < 256 /\ 0 <= o3 < 256 /\ 0 <= o4 < 256) /\
    n mod 2 ^ 32 = o1 * 2 ^ 24 + o2 * 2 ^ 16 + o3 * 2 ^ 8 + o4 /\
    "127.0.0.1" = utils.itoa o1 +:+ "." +:+ utils.itoa o2 +:+ "."
                    +:+ utils.itoa o3 +:+ "." +:+ utils.itoa o4.
Proof.
  refine (proj1
            (C7_ip_decoding (Fake.webApp Fake.no_faults) newResponseWriter
               (Fake.request Fake.scenario) [])
            {| InfoHash := "4142"; PeerID := "4344"; IP := "127.0.0.1"; Port := 6881;
               DC := ""; BytesUploaded := 0; BytesDownloaded := 0; BytesLeft := 1000;
               Event := "started" |} _).
  vm_compute. left. reflexivity.
Defined.

Example ip_above_int32_refused :
  let r := Fake.request (Fake.with_param "ip" "3232235777" Fake.scenario) in
  run (GetAnnounceHandler (Fake.webApp Fake.no_faults) newResponseWriter r) []
  = (http_Error newResponseWriter
       (err_Error (NumError "ParseInt" "3232235777" ErrRange))
       StatusInternalServerError,
     {| world := []; calls := [] |}).
Proof. vm_compute. reflexivity. Qed.

(** ** Failures after Update *)

(** The stage after a successful Update (which left the state [σ1]) at
    which the run fails: Read, AssignPeerPriority, SamplePeers or the
    encoder. *)
Inductive later_stage_fails {W} (webApp : webAppStruct W) (peer : PeerInfo) (σ1 : W)
  : Prop :=
| fails_at_Read l e σ2 :
    Read (datastore webApp) (InfoHash peer) σ1 = ((l, Some e), σ2) ->
    later_stage_fails webApp peer σ1
| fails_at_AssignPeerPriority l σ2 l' e σ3 :
    Read (datastore webApp) (InfoHash peer) σ1 = ((l, None), σ2) ->
    AssignPeerPriority (policy webApp) (IP peer) (DC peer) l σ2 = ((l', Some e), σ3) ->
    later_stage_fails webApp peer σ1
| fails_at_SamplePeers l σ2 l' σ3 l'' e σ4 :
    Read (datastore webApp) (InfoHash peer) σ1 = ((l, None), σ2) ->
    AssignPeerPriority (policy webApp) (IP peer) (DC peer) l σ2 = ((l', None), σ3) ->
    SamplePeers (policy webApp) l' (Z.of_nat (length l')) σ3 = ((l'', Some e), σ4) ->
    later_stage_fails webApp peer σ1
| fails_at_Marshal l σ2 l' σ3 l'' σ4 bytes e :
    Read (datastore webApp) (InfoHash peer) σ1 = ((l, None), σ2) ->
    AssignPeerPriority (policy webApp) (IP peer) (DC peer) l σ2 = ((l', None), σ3) ->
    SamplePeers (policy webApp) l' (Z.of_nat (length l')) σ3 = ((l'', None), σ4) ->
    bencode_Marshal webApp
      {| Interval := appCfg_AnnounceInterval webApp; Peers := l'' |} = (bytes, Some e) ->
    later_stage_fails webApp peer σ1.

(** The encoder fails after it has written part of the reply. *)
Inductive encoder_fails_after_writing {W} (webApp : webAppStruct W) (peer : PeerInfo)
  (σ1 : W) : Prop :=
| wrote_then_failed l σ2 l' σ3 l'' σ4 bytes e :
    Read (datastore webApp) (InfoHash peer) σ1 = ((l, None), σ2) ->
    AssignPeerPriority (policy webApp) (IP peer) (DC peer) l σ2 = ((l', None), σ3) ->
    SamplePeers (policy webApp) l' (Z.of_nat (length l')) σ3 = ((l'', None), σ4) ->
    bencode_Marshal webApp
      {| Interval := appCfg_AnnounceInterval webApp; Peers := l'' |} = (bytes, Some e) ->
    bytes <> "" ->
    encoder_fails_after_writing webApp peer σ1.

(** C8 (as the code has it).  When Update succeeds and a later stage
    fails, the calls made are the one Update followed by calls that are
    not Update: of the datastore only Read is called after it, so
    nothing undoes the record Update has stored.  The handler then
    calls http.Error with status 500, and on a writer that has sent
    nothing the reply is 500, with one exception: when it is the
    encoder that fails, after it has written part of the reply, the
    status 200 has gone out with those bytes and the reply stays 200. *)
Theorem C8_no_rollback {W} (webApp : webAppStruct W) w r σ peer σ1 :
  sent w = None ->
  announce_peer (URL_Query r) = Some peer ->
  Update (datastore webApp) peer σ = (None, σ1) ->
  later_stage_fails webApp peer σ1 ->
  let res := run (GetAnnounceHandler webApp w r) σ in
  (exists rest,
     calls res.2 = Call_Update peer :: rest /\
     Forall (fun c => op_of c <> Op_Update) rest /\
     Forall (fun c => repository_call c = true -> op_of c = Op_Read) rest /\
     count_occ Op_eq_dec (map op_of (calls res.2)) Op_Update = 1%nat) /\
  code res.1 = Some 500 /\
  (encoder_fails_after_writing webApp peer σ1 -> reply_status res.1 = 200) /\
  (~ encoder_fails_after_writing webApp peer σ1 ->
   reply_status res.1 = 500 /\ server_error 500).
Proof.
  intros Hw Hp HU Hfail res.
  pose proof (GetAnnounceHandler_run webApp w r peer σ Hp) as Hrun. fold res in Hrun.
  assert (Hs : server_error 500) by (unfold server_error; lia).
  assert (Hcalls : forall rest,
             Forall (fun c => op_of c <> Op_Update) rest ->
             Forall (fun c => repository_call c = true -> op_of c = Op_Read) rest ->
             count_occ Op_eq_dec (map op_of (Call_Update peer :: rest)) Op_Update = 1%nat ->
             exists rest',
               Call_Update peer :: rest = Call_Update peer :: rest' /\
               Forall (fun c => op_of c <> Op_Update) rest' /\
               Forall (fun c => repository_call c = true -> op_of c = Op_Read) rest' /\
               count_occ Op_eq_dec (map op_of (Call_Update peer :: rest)) Op_Update
               = 1%nat) by eauto.
  destruct Hrun as [e σ1' HU' | σ1' l e σ2 HU' HR | σ1' l σ2 l' e σ3 HU' HR HA
                   | σ1' l σ2 l' σ3 l'' e σ4 HU' HR HA HS
                   | σ1' l σ2 l' σ3 l'' σ4 HU' HR HA HS];
    rewrite HU in HU'; try discriminate; injection HU' as <-; cbn [fst snd calls].
  1-3: (split; [apply Hcalls; repeat constructor; simpl; congruence|]);
       (split; [reflexivity|]); split;
       [ intros [? ? ? ? ? ? ? ? HR' HA' HS' _ _]; congruence
       | intros _; split; [by apply http_Error_fresh | exact Hs] ].
  split; [apply Hcalls; repeat constructor; simpl; congruence|].
  destruct Hfail as [? ? ? HR' | ? ? ? ? ? HR' HA' | ? ? ? ? ? ? ? HR' HA' HS'
                    | ? ? ? ? ? ? ? ? HR' HA' HS' HM];
    rewrite HR in HR'; try discriminate; injection HR' as <- <-;
    rewrite HA in HA'; try discriminate; injection HA' as <- <-;
    rewrite HS in HS'; try discriminate; injection HS' as <- <-.
  pose proof (encode_reply_status webApp w l'' _ _ Hw HM) as Hst.
  split; [unfold encode_reply; by rewrite HM|]. split.
  - intros [? ? ? ? ? ? bytes' e' HR' HA' HS' HM' Hne].
    rewrite HR in HR'; injection HR' as <- <-.
    rewrite HA in HA'; injection HA' as <- <-.
    rewrite HS in HS'; injection HS' as <- <-.
    rewrite HM in HM'; injection HM' as <- <-.
    rewrite Hst. by destruct bytes.
  - intros Hnot. split; [|exact Hs]. rewrite Hst.
    destruct bytes as [|c bytes]; [done|].
    destruct Hnot. by eapply wrote_then_failed.
Qed.

Definition Read_fails_faults : Fake.Faults :=
  {| Fake.Update_err := None;
     Fake.Read_err := Some (errors_New "read: connection refused");
     Fake.AssignPeerPriority_err := None;
     Fake.SamplePeers_err := None;
     Fake.Marshal_err := None |}.

Definition scenario_peer : PeerInfo :=
  {| InfoHash := "4142"; PeerID := "4344"; IP := "127.0.0.1"; Port := 6881;
     DC := ""; BytesUploaded := 0; BytesDownloaded := 0; BytesLeft := 1000;
     Event := "started" |}.

(** An application whose encoder fails once it has written the start of
    the dictionary, as when the connection breaks in the middle of the
    reply. *)
Definition Marshal_breaks_webApp : webAppStruct (list PeerInfo) :=
  {| appCfg_AnnounceInterval := 30;
     datastore := Fake.storage Fake.no_faults;
     policy := Fake.handout Fake.no_faults;
     bencode_Marshal := fun _ => ("d8:interval", Some (errors_New "write: broken pipe")) |}.

Lemma C8_encoder_fails_after_writing :
  let res := run (GetAnnounceHandler Marshal_breaks_webApp newResponseWriter
                    (Fake.request Fake.scenario)) [] in
  calls res.2 !! 0%nat = Some (Call_Update scenario_peer) /\
  world res.2 = [scenario_peer] /\
  code res.1 = Some 500 /\
  reply_status res.1 = 200 /\
  ~ server_error (reply_status res.1).
Proof.
  assert (Hlater : later_stage_fails Marshal_breaks_webApp scenario_peer [scenario_peer]).
  { eapply fails_at_Marshal; vm_compute; reflexivity. }
  assert (Hwrote : encoder_fails_after_writing Marshal_breaks_webApp scenario_peer
                     [scenario_peer]).
  { eapply wrote_then_failed; try (vm_compute; reflexivity). done. }
  destruct (C8_no_rollback Marshal_breaks_webApp newResponseWriter
              (Fake.request Fake.scenario) [] scenario_peer [scenario_peer]
              eq_refl eq_refl eq_refl Hlater)
    as ((rest & Hcalls & _) & Hcode & H200 & _).
  cbv zeta. rewrite Hcalls, Hcode, (H200 Hwrote).
  repeat split. unfold server_error. lia.
Defined.

(** The same request when it is Read that fails: the reply is 500. *)
Example Read_failure_reply :
  let res := run (GetAnnounceHandler (Fake.webApp Read_fails_faults) newResponseWriter
                    (Fake.request Fake.scenario)) [] in
  reply_status res.1 = 500 /\
  map op_of (calls res.2) = [Op_Update; Op_Read].
Proof. vm_compute. split; reflexivity. Qed.

(** With the in-memory datastore the record is still there after the
    failed announce, and a later announce of the same peer replaces it
    instead of adding a second one. *)
Example Read_failure_keeps_record :
  world (run (GetAnnounceHandler (Fake.webApp Read_fails_faults) newResponseWriter
                (Fake.request Fake.scenario)) []).2
  = [scenario_peer].
Proof. vm_compute. reflexivity. Qed.

Example announce_again_one_record :
  length
    (world (run (GetAnnounceHandler (Fake.webApp Fake.no_faults) newResponseWriter
                   (Fake.request (Fake.with_param "left" "0" Fake.scenario)))
              [scenario_peer]).2)
  = 1%nat.
Proof. vm_compute. reflexivity. Qed.

(** ** The sampling limit *)

Definition with_URL_Query (queryValues : gmap string (list string)) (r : Request)
  : Request :=
  {| Method := Method r; Host := Host r; RemoteAddr := RemoteAddr r;
     URL_Query := queryValues |}.

(** The query parameters the handler reads. *)
Definition announce_keys : list string :=
  ["info_hash"; "peer_id"; "port"; "ip"; "dc"; "downloaded"; "uploaded"; "left";
   "event"].

Lemma GetAnnounceHandler_other_key {W} (webApp : webAppStruct W) w r key vs :
  ~ In key announce_keys ->
  GetAnnounceHandler webApp w (with_URL_Query (<[key := vs]> (URL_Query r)) r)
  = GetAnnounceHandler webApp w r.
Proof.
  intros Hk. unfold GetAnnounceHandler. simpl.
  rewrite !Values_Get_insert_ne; [reflexivity|..];
    intros ->; apply Hk; simpl; tauto.
Qed.

(** C9.  Every call to SamplePeers has for limit the length of the list
    it is given, which is the length of the list Read returned (the
    priority assignment, made in between, keeps the length); and a
    query parameter other than the nine the handler reads, such as a
    peer count, changes nothing to the run. *)
Theorem C9_sample_limit {W} (webApp : webAppStruct W) w r σ :
  let res := run (GetAnnounceHandler webApp w r) σ in
  (forall peers limit,
     In (Call_SamplePeers peers limit) (calls res.2) ->
     limit = Z.of_nat (length peers) /\
     exists peer σ1 l σ2,
       announce_peer (URL_Query r) = Some peer /\
       Update (datastore webApp) peer σ = (None, σ1) /\
       Read (datastore webApp) (InfoHash peer) σ1 = ((l, None), σ2) /\
       peers = (AssignPeerPriority (policy webApp) (IP peer) (DC peer) l σ2).1.1 /\
       limit = Z.of_nat (length l)) /\
  (forall key vs,
     ~ In key announce_keys ->
     run (GetAnnounceHandler webApp w
            (with_URL_Query (<[key := vs]> (URL_Query r)) r)) σ = res).
Proof.
  intros res. split.
  - intros peers limit Hin.
    destruct (validation_error (URL_Query r)) as [e|] eqn:He.
    { subst res. unfold run in Hin.
      rewrite (GetAnnounceHandler_invalid _ _ _ e) in Hin by done.
      simpl in Hin. tauto. }
    apply well_formed_validation_error, well_formed_announce_peer in He as [peer Hp].
    pose proof (GetAnnounceHandler_run webApp w r peer σ Hp) as Hrun.
    fold res in Hrun.
    destruct Hrun as [e σ1 HU | σ1 l e σ2 HU HR | σ1 l σ2 l' e σ3 HU HR HA
                     | σ1 l σ2 l' σ3 l'' e σ4 HU HR HA HS
                     | σ1 l σ2 l' σ3 l'' σ4 HU HR HA HS];
      simpl in Hin;
      repeat (destruct Hin as [Hin|Hin]; try discriminate); try tauto;
      injection Hin as <- <-;
      (split; [reflexivity|]);
      exists peer, σ1, l, σ2; rewrite HA; simpl;
      repeat split; try done;
      pose proof (AssignPeerPriority_length (policy webApp) (IP peer) (DC peer) l σ2)
        as Hlen; rewrite HA in Hlen; simpl in Hlen; by rewrite Hlen.
  - intros key vs Hk. subst res. unfold run.
    by rewrite GetAnnounceHandler_other_key.
Qed.

Lemma C9_scenario_limit :
  let r := Fake.request Fake.scenario in
  1 = Z.of_nat (length [scenario_peer]) /\
  exists peer σ1 l σ2,
    announce_peer (URL_Query r) = Some peer /\
    Update (datastore (Fake.webApp Fake.no_faults)) peer [] = (None, σ1) /\
    Read (datastore (Fake.webApp Fake.no_faults)) (InfoHash peer) σ1 = ((l, None), σ2) /\
    [scenario_peer]
    = (AssignPeerPriority (policy (Fake.webApp Fake.no_faults))
         (IP peer) (DC peer) l σ2).1.1 /\
    1 = Z.of_nat (length l).
Proof.
  refine (proj1
            (C9_sample_limit (Fake.webApp Fake.no_faults) newResponseWriter
               (Fake.request Fake.scenario) [])
            [scenario_peer] 1 _).
  vm_compute. do 3 right. left. reflexivity.
Defined.

Example numwant_ignored :
  run (GetAnnounceHandler (Fake.webApp Fake.no_faults) newResponseWriter
         (Fake.request (("numwant", "0") :: Fake.scenario))) [scenario_peer]
  = run (GetAnnounceHandler (Fake.webApp Fake.no_faults) newResponseWriter
           (Fake.request Fake.scenario)) [scenario_peer].
Proof. vm_compute. reflexivity. Qed.

(** ** Missing identifiers *)

(** C10.  A request whose info_hash or peer_id is missing or empty is
    not refused: when the numeric fields parse, the first call is Update
    with the record of the request, whose InfoHash (or PeerID) is the
    empty string, the hex encoding of the empty value. *)
Theorem C10_empty_identifiers {W} (webApp : webAppStruct W) w r σ :
  well_formed (URL_Query r) ->
  let q := URL_Query r in
  let res := run (GetAnnounceHandler webApp w r) σ in
  hex.EncodeToString "" = "" /\
  exists peer rest,
    calls res.2 = Call_Update peer :: rest /\
    ~ refused_in_validation res /\
    (q !! "info_hash" = None \/ Values_Get q "info_hash" = "" -> InfoHash peer = "") /\
    (q !! "peer_id" = None \/ Values_Get q "peer_id" = "" -> PeerID peer = "").
Proof.
  intros Hwf q res. split; [reflexivity|].
  destruct (well_formed_first_call webApp w r σ Hwf) as (peer & rest & Hp & Hc & _).
  exists peer, rest. fold res in Hc. split; [exact Hc|].
  split; [intros [Hn _]; congruence|].
  unfold announce_peer in Hp.
  destruct (validation_error (URL_Query r)); [discriminate|].
  injection Hp as <-. simpl. fold q.
  split; (intros [Hm|He]; [apply Values_Get_missing in Hm; by rewrite Hm
                          | by rewrite He]).
Qed.

Lemma C10_no_identifiers :
  let r := Fake.request
             [("port", "6881"); ("ip", "2130706433"); ("downloaded", "0");
              ("uploaded", "0"); ("left", "1000")] in
  let res := run (GetAnnounceHandler (Fake.webApp Fake.no_faults) newResponseWriter r) [] in
  hex.EncodeToString "" = "" /\
  exists peer rest,
    calls res.2 = Call_Update peer :: rest /\
    ~ refused_in_validation res /\
    (URL_Query r !! "info_hash" = None \/ Values_Get (URL_Query r) "info_hash" = ""
     -> InfoHash peer = "") /\
    (URL_Query r !! "peer_id" = None \/ Values_Get (URL_Query r) "peer_id" = ""
     -> PeerID peer = "").
Proof.
  refine (C10_empty_identifiers (Fake.webApp Fake.no_faults) newResponseWriter
            (Fake.request
               [("port", "6881"); ("ip", "2130706433"); ("downloaded", "0");
                ("uploaded", "0"); ("left", "1000")]) [] _).
  intros []; vm_compute; reflexivity.
Defined.

Example no_identifiers_record :
  world (run (GetAnnounceHandler (Fake.webApp Fake.no_faults) newResponseWriter
                (Fake.request
                   [("port", "6881"); ("ip", "2130706433"); ("downloaded", "0");
                    ("uploaded", "0"); ("left", "1000")])) []).2
  = [{| InfoHash := ""; PeerID := ""; IP := "127.0.0.1"; Port := 6881;
        DC := ""; BytesUploaded := 0; BytesDownloaded := 0; BytesLeft := 1000;
        Event := "" |}].
Proof. vm_compute. reflexivity. Qed.

(** ** The encoded reply *)

(** What goes on the wire after a successful run is what the encoder
    writes for the interval of the configuration and the records
    SamplePeers returned: the handler copies the records whole, and
    which of their fields are written is up to the encoder. *)
Lemma successful_reply_body {W} (webApp : webAppStruct W) w r σ :
  code w = None ->
  let res := run (GetAnnounceHandler webApp w r) σ in
  code res.1 = None ->
  exists peers limit sampled σ3 σ4 bytes,
    last (calls res.2) = Some (Call_SamplePeers peers limit) /\
    SamplePeers (policy webApp) peers limit σ3 = ((sampled, None), σ4) /\
    bencode_Marshal webApp
      {| Interval := appCfg_AnnounceInterval webApp; Peers := sampled |}
    = (bytes, None) /\
    body res.1 = body w +:+ bytes.
Proof.
  intros Hw res Hcode.
  destruct (validation_error (URL_Query r)) as [e|] eqn:He.
  { subst res. unfold run in Hcode.
    rewrite (GetAnnounceHandler_invalid _ _ _ e) in Hcode by done. discriminate. }
  apply well_formed_validation_error, well_formed_announce_peer in He as [peer Hp].
  pose proof (GetAnnounceHandler_run webApp w r peer σ Hp) as Hrun.
  fold res in Hrun. destruct Hrun; simpl in Hcode; try discriminate.
  simpl. unfold encode_reply in *.
  destruct (bencode_Marshal webApp _) as [bytes [e|]] eqn:HM; [discriminate|].
  exists l', (Z.of_nat (length l')), l'', σ3, σ4, bytes.
  repeat split; try done. cbn [fst].
  by destruct (Marshal_Write_fields bytes
                 (Header_Set "Content-Type" "text/html; charset=utf-8" w))
    as (_ & _ & ->).
Qed.

(** * Further properties

    ** Decimal numerals

    What strconv accepts, said without the loop: [decimal_value] is the
    number a string of digits denotes, [unsigned_decimal] and
    [signed_decimal] the numerals ParseUint and ParseInt read in base
    10, before any range check. *)
Definition byte_code (c : ascii) : Z := Z.of_N (N_of_ascii c).

Definition is_digit (c : ascii) : bool :=
  (48 <=? byte_code c) && (byte_code c <=? 57).

Fixpoint all_digits (s : string) : bool :=
  match s with
  | EmptyString => true
  | String c s' => is_digit c && all_digits s'
  end.

Fixpoint decimal_from (n : Z) (s : string) : Z :=
  match s with
  | EmptyString => n
  | String c s' => decimal_from (n * 10 + (byte_code c - 48)) s'
  end.

Definition decimal_value (s : string) : Z := decimal_from 0 s.

Definition unsigned_decimal (s : string) : option Z :=
  match s with
  | EmptyString => None
  | _ => if all_digits s then Some (decimal_value s) else None
  end.

Definition signed_decimal (s : string) : option Z :=
  match s with
  | EmptyString => None
  | String c rest =>
      if (c =? "+")%char then unsigned_decimal rest
      else if (c =? "-")%char then Z.opp <$> unsigned_decimal rest
      else unsigned_decimal s
  end.

Lemma digit_decimal c v :
  strconv.digit c = Some v /\ (v >=? 10) = false
  <-> is_digit c = true /\ v = byte_code c - 48.
Proof.
  unfold strconv.digit, is_digit, byte_code.
  set (k := Z.of_N (N_of_ascii c)).
  destruct (48 <=? k) eqn:H1, (k <=? 57) eqn:H2; simpl;
    [split; [intros [[= <-] _]; done | intros [_ ->]; split; [done | lia]] |..];
    (split; [|intros [? _]; discriminate]);
    destruct (97 <=? k) eqn:H3, (k <=? 122) eqn:H4; simpl;
    try (intros [[= <-] ?]; lia);
    destruct (65 <=? k) eqn:H5, (k <=? 90) eqn:H6; simpl;
    try (intros [[= <-] ?]; lia); intros [? _]; discriminate.
Qed.

Lemma decimal_from_mono s n :
  0 <= n -> all_digits s = true -> n <= decimal_from n s.
Proof.
  revert n. induction s as [|c s IH]; intros n Hn; simpl; [lia|].
  intros [Hc Hs]%andb_true_iff.
  assert (0 <= byte_code c - 48 <= 9).
  { unfold is_digit in Hc. apply andb_true_iff in Hc as [?%Z.leb_le ?%Z.leb_le]. lia. }
  specialize (IH (n * 10 + (byte_code c - 48)) ltac:(lia) Hs). lia.
Qed.

(** The digit loop in base 10: it succeeds exactly on strings of digits
    whose value stays within [maxVal], and it returns that value. *)
Lemma digits_decimal maxVal s n v :
  0 <= n <= maxVal -> maxVal <= strconv.maxUint64 ->
  strconv.digits 10 (strconv.maxUint64 / 10 + 1) maxVal s n = (v, None)
  <-> all_digits s = true /\ decimal_from n s = v /\ v <= maxVal.
Proof.
  change (strconv.maxUint64 / 10 + 1) with 1844674407370955162.
  unfold strconv.maxUint64. intros Hn Hmax.
  revert n Hn. induction s as [|c s IH]; intros n Hn; simpl.
  { split; [intros [= <-]; repeat split; lia | intros (_ & -> & _); done]. }
  split.
  - destruct (strconv.digit c) as [dv|] eqn:Hd; [|discriminate].
    destruct (dv >=? 10) eqn:Hb; [discriminate|].
    destruct (digit_decimal c dv) as [Hdd _].
    destruct (Hdd (conj Hd Hb)) as [Hc ->].
    destruct (n >=? 1844674407370955162) eqn:Hcut; [discriminate|].
    assert (0 <= byte_code c - 48 <= 9).
    { unfold is_digit in Hc. apply andb_true_iff in Hc as [?%Z.leb_le ?%Z.leb_le]. lia. }
    unfold uint64. rewrite (Z.mod_small (n * 10)) by lia.
    destruct (_ || _) eqn:Hov; [discriminate|].
    apply orb_false_iff in Hov as [Hov1 Hov2].
    assert (Hsmall : n * 10 + (byte_code c - 48) < 2 ^ 64).
    { destruct (Z_lt_ge_dec (n * 10 + (byte_code c - 48)) (2 ^ 64)) as [|Hge]; [done|].
      exfalso.
      assert ((n * 10 + (byte_code c - 48)) mod 2 ^ 64
              = n * 10 + (byte_code c - 48) - 2 ^ 64) as Hm.
      { replace (n * 10 + (byte_code c - 48))
          with ((n * 10 + (byte_code c - 48) - 2 ^ 64) + 1 * 2 ^ 64) at 1 by lia.
        rewrite Z.mod_add by lia. apply Z.mod_small. lia. }
      rewrite Hm in Hov1. lia. }
    rewrite Z.mod_small in * by lia.
    intros Hrec. apply IH in Hrec; [|lia].
    rewrite Hc. simpl. exact Hrec.
  - intros (Hall & Hv & Hle). apply andb_true_iff in Hall as [Hc Hs].
    destruct (digit_decimal c (byte_code c - 48)) as [_ Hdd].
    destruct (Hdd (conj Hc eq_refl)) as [Hd Hb]. rewrite Hd, Hb.
    assert (0 <= byte_code c - 48 <= 9).
    { unfold is_digit in Hc. apply andb_true_iff in Hc as [?%Z.leb_le ?%Z.leb_le]. lia. }
    pose proof (decimal_from_mono s (n * 10 + (byte_code c - 48)) ltac:(lia) Hs) as Hm.
    rewrite Hv in Hm.
    destruct (n >=? 1844674407370955162) eqn:Hcut; [lia|].
    unfold uint64. rewrite (Z.mod_small (n * 10)) by lia.
    rewrite (Z.mod_small (n * 10 + _)) by lia.
    destruct (_ || _) eqn:Hov.
    { apply orb_true_iff in Hov as [?|?]; lia. }
    apply IH; [lia|]. done.
Qed.

Lemma unsigned_decimal_Some s v :
  unsigned_decimal s = Some v
  <-> s <> "" /\ all_digits s = true /\ decimal_from 0 s = v.
Proof.
  unfold unsigned_decimal, decimal_value. destruct s as [|c s].
  - split; [discriminate | intros [? _]; done].
  - destruct (all_digits (String c s)).
    + split; [intros [= <-]; done | intros (_ & _ & ->); done].
    + split; [discriminate | intros (_ & ? & _); discriminate].
Qed.

Lemma ParseUint_decimal s bitSize v :
  bitSize = 32 \/ bitSize = 64 ->
  strconv.ParseUint s 10 bitSize = (v, None)
  <-> unsigned_decimal s = Some v /\ v < 2 ^ bitSize.
Proof.
  intros Hb.
  assert (Hmax : uint64 (uint64 (Z.shiftl 1 bitSize) - 1) = 2 ^ bitSize - 1)
    by (destruct Hb as [-> | ->]; reflexivity).
  assert (Hle : 0 <= 2 ^ bitSize - 1 <= strconv.maxUint64)
    by (destruct Hb as [-> | ->]; unfold strconv.maxUint64; lia).
  rewrite unsigned_decimal_Some.
  unfold strconv.ParseUint.
  destruct s as [|c s]; [split; [discriminate | intros [[? _] _]; done]|].
  rewrite Hmax.
  pose proof (digits_decimal (2 ^ bitSize - 1) (String c s) 0 v ltac:(lia) ltac:(lia))
    as Hd.
  destruct (strconv.digits _ _ _ _ _) as [n [e|]] eqn:Hdig.
  - split; [discriminate|]. intros [(_ & Hall & Hval) Hv].
    assert ((n, Some e) = (v, None)) as [=].
    apply Hd. repeat split; [done.. | lia].
  - split.
    + intros [= ->]. destruct Hd as [Hd _].
      destruct (Hd eq_refl) as (Hall & Hval & Hv). repeat split; [done.. | lia].
    + intros [(_ & Hall & Hval) Hv].
      assert ((n, @None strconv_Err) = (v, None)) as [= ->]; [|done].
      apply Hd. repeat split; [done.. | lia].
Qed.

Lemma unsigned_decimal_nonneg s u : unsigned_decimal s = Some u -> 0 <= u.
Proof.
  intros (_ & Hall & <-)%unsigned_decimal_Some.
  by apply decimal_from_mono.
Qed.

(** ParseInt after the sign has been taken off: [neg] is the sign,
    [s1] the rest, [s0] the whole string. *)
Lemma ParseInt_tail_decimal bitSize (neg : bool) s0 s1 v :
  bitSize = 32 \/ bitSize = 64 ->
  (let '(un, err) := strconv.ParseUint s1 10 bitSize in
   match err with
   | Some (NumError _ _ ErrSyntax) => (0, Some (NumError "ParseInt" s0 ErrSyntax))
   | Some (errors_New _) => (0, err)
   | _ =>
       let cutoff := uint64 (Z.shiftl 1 (bitSize - 1)) in
       if negb neg && (un >=? cutoff) then
         (int64 (cutoff - 1), Some (NumError "ParseInt" s0 ErrRange))
       else if neg && (un >? cutoff) then
         (int64 (- int64 cutoff), Some (NumError "ParseInt" s0 ErrRange))
       else
         let n := int64 un in
         let n := if neg then int64 (- n) else n in
         (n, None)
   end) = (v, None)
  <-> exists u, unsigned_decimal s1 = Some u /\
                v = (if neg then - u else u) /\
                - 2 ^ (bitSize - 1) <= v < 2 ^ (bitSize - 1).
Proof.
  intros Hb.
  assert (Hcut : uint64 (Z.shiftl 1 (bitSize - 1)) = 2 ^ (bitSize - 1))
    by (destruct Hb as [-> | ->]; reflexivity).
  assert (Hpow : 2 ^ bitSize = 2 * 2 ^ (bitSize - 1) /\ 0 < 2 ^ (bitSize - 1) <= 2 ^ 63)
    by (destruct Hb as [-> | ->]; split; lia).
  destruct (strconv.ParseUint s1 10 bitSize) as [un err] eqn:HU.
  assert (Hfail : err <> None ->
                  ~ exists u, unsigned_decimal s1 = Some u /\
                              v = (if neg then - u else u) /\
                              - 2 ^ (bitSize - 1) <= v < 2 ^ (bitSize - 1)).
  { intros Herr (u & Hu & -> & Hr).
    pose proof (unsigned_decimal_nonneg _ _ Hu).
    assert (strconv.ParseUint s1 10 bitSize = (u, None)) as HU'.
    { apply ParseUint_decimal; [done|]. split; [done|]. destruct neg; lia. }
    congruence. }
  destruct err as [[f m [] | t]|].
  - split; [discriminate | intros H; by destruct Hfail].
  - apply ParseUint_ErrRange in HU as ->. rewrite Hcut.
    split; [|intros H; by destruct Hfail].
    unfold strconv.maxUint64.
    destruct neg; simpl.
    + destruct (_ >? _) eqn:Hc; [discriminate | lia].
    + destruct (_ >=? _) eqn:Hc; [discriminate | lia].
  - split; [discriminate | intros H; by destruct Hfail].
  - clear Hfail. apply (ParseUint_decimal s1 bitSize un Hb) in HU as [Hu Hlt].
    pose proof (unsigned_decimal_nonneg _ _ Hu) as H0.
    cbv zeta. rewrite Hcut. destruct neg; simpl.
    + destruct (un >? 2 ^ (bitSize - 1)) eqn:Hc.
      * split; [discriminate|]. intros (u & Hu' & -> & Hr).
        assert (u = un) as -> by congruence. lia.
      * assert (int64 (- int64 un) = - un) as Hv.
        { destruct (Z.eq_dec un (2 ^ 63)) as [-> | Hne]; [reflexivity|].
          rewrite (int64_small un) by lia. apply int64_small. lia. }
        rewrite Hv. split.
        -- intros [= <-]. exists un. repeat split; [done | lia..].
        -- intros (u & Hu' & -> & Hr). assert (u = un) as -> by congruence. done.
    + destruct (un >=? 2 ^ (bitSize - 1)) eqn:Hc.
      * split; [discriminate|]. intros (u & Hu' & -> & Hr).
        assert (u = un) as -> by congruence. lia.
      * rewrite (int64_small un) by lia. split.
        -- intros [= <-]. exists un. repeat split; [done | lia..].
        -- intros (u & Hu' & -> & Hr). assert (u = un) as -> by congruence. done.
Qed.

(** ParseInt in base 10 reads a signed numeral and checks its range. *)
Lemma ParseInt_decimal s bitSize v :
  bitSize = 32 \/ bitSize = 64 ->
  strconv.ParseInt s 10 bitSize = (v, None)
  <-> signed_decimal s = Some v /\ - 2 ^ (bitSize - 1) <= v < 2 ^ (bitSize - 1).
Proof.
  intros Hb. unfold strconv.ParseInt, signed_decimal.
  destruct s as [|c s]; [split; [discriminate | intros [[=] _]]|].
  destruct (c =? "+")%char; [|destruct (c =? "-")%char].
  - rewrite (ParseInt_tail_decimal bitSize false (String c s) s v Hb). split.
    + intros (u & Hu & -> & Hr). done.
    + intros [Hu Hr]. by exists v.
  - rewrite (ParseInt_tail_decimal bitSize true (String c s) s v Hb). split.
    + intros (u & Hu & -> & Hr). by rewrite Hu.
    + intros [Hu Hr]. destruct (unsigned_decimal s) as [u|]; [|discriminate].
      injection Hu as <-. by exists u.
  - rewrite (ParseInt_tail_decimal bitSize false (String c s) (String c s) v Hb). split.
    + intros (u & Hu & -> & Hr). done.
    + intros [Hu Hr]. by exists v.
Qed.

Example signed_decimal_examples :
  signed_decimal "+6881" = Some 6881 /\ signed_decimal "-0" = Some 0 /\
  signed_decimal "" = None /\ signed_decimal "+" = None /\
  signed_decimal "--1" = None /\ signed_decimal " 1" = None /\
  signed_decimal "0x10" = None /\ signed_decimal "1_000" = None /\
  unsigned_decimal "+1" = None /\ unsigned_decimal "007" = Some 7.
Proof. vm_compute. repeat split. Qed.

(** ** What the announce validation accepts

    [announce_numbers] reads the five numeric parameters as numerals in
    their ranges, with no reference to strconv. *)
Definition numeral_in (lo hi : Z) (o : option Z) : option Z :=
  match o with
  | Some v => if (lo <=? v) && (v <? hi) then Some v else None
  | None => None
  end.

Record AnnounceNumbers := {
  n_port : Z;
  n_ip : Z;
  n_downloaded : Z;
  n_uploaded : Z;
  n_left : Z
}.

Definition announce_numbers (queryValues : gmap string (list string))
  : option AnnounceNumbers :=
  match numeral_in (- 2 ^ 63) (2 ^ 63) (signed_decimal (Values_Get queryValues "port")),
        numeral_in (- 2 ^ 31) (2 ^ 31) (signed_decimal (Values_Get queryValues "ip")),
        numeral_in (- 2 ^ 63) (2 ^ 63)
          (signed_decimal (Values_Get queryValues "downloaded")),
        numeral_in (- 2 ^ 63) (2 ^ 63)
          (signed_decimal (Values_Get queryValues "uploaded")),
        numeral_in 0 (2 ^ 64) (unsigned_decimal (Values_Get queryValues "left"))
  with
  | Some p, Some i, Some d, Some u, Some l =>
      Some {| n_port := p; n_ip := i; n_downloaded := d; n_uploaded := u; n_left := l |}
  | _, _, _, _, _ => None
  end.

Lemma numeral_in_Some lo hi o v :
  numeral_in lo hi o = Some v <-> o = Some v /\ lo <= v < hi.
Proof.
  unfold numeral_in. destruct o as [x|]; [|split; [discriminate | intros [[=] _]]].
  destruct (_ && _) eqn:Hc.
  - apply andb_true_iff in Hc as [?%Z.leb_le ?%Z.ltb_lt].
    split; [intros [= <-]; done | intros [[= <-] _]; done].
  - split; [discriminate|]. intros [[= <-] Hr].
    apply andb_false_iff in Hc as [?%Z.leb_gt | ?%Z.ltb_ge]; lia.
Qed.

Lemma ParseInt_numeral s bitSize :
  bitSize = 32 \/ bitSize = 64 ->
  match numeral_in (- 2 ^ (bitSize - 1)) (2 ^ (bitSize - 1)) (signed_decimal s) with
  | Some v => strconv.ParseInt s 10 bitSize = (v, None)
  | None => (strconv.ParseInt s 10 bitSize).2 <> None
  end.
Proof.
  intros Hb. destruct (numeral_in _ _ _) as [v|] eqn:Hn.
  - apply numeral_in_Some in Hn. by apply ParseInt_decimal.
  - destruct (strconv.ParseInt s 10 bitSize) as [v [e|]] eqn:HP; [done|].
    apply (ParseInt_decimal s bitSize v Hb) in HP. apply numeral_in_Some in HP.
    congruence.
Qed.

Lemma ParseUint_numeral s :
  match numeral_in 0 (2 ^ 64) (unsigned_decimal s) with
  | Some v => strconv.ParseUint s 10 64 = (v, None)
  | None => (strconv.ParseUint s 10 64).2 <> None
  end.
Proof.
  destruct (numeral_in _ _ _) as [v|] eqn:Hn.
  - apply numeral_in_Some in Hn as [Hu Hr]. apply ParseUint_decimal; [by right|].
    split; [done | lia].
  - destruct (strconv.ParseUint s 10 64) as [v [e|]] eqn:HP; [done|].
    apply (ParseUint_decimal s 64 v) in HP as [Hu Hr]; [|by right].
    assert (numeral_in 0 (2 ^ 64) (unsigned_decimal s) = Some v); [|congruence].
    apply numeral_in_Some. split; [done|].
    pose proof (unsigned_decimal_nonneg _ _ Hu). lia.
Qed.

Lemma announce_numbers_peer queryValues :
  match announce_numbers queryValues with
  | Some n =>
      announce_peer queryValues
      = Some {| InfoHash := hex.EncodeToString (Values_Get queryValues "info_hash");
                PeerID := hex.EncodeToString (Values_Get queryValues "peer_id");
                IP := utils.IP_String (utils.Int32toIP (n_ip n));
                Port := n_port n;
                DC := Values_Get queryValues "dc";
                BytesUploaded := n_uploaded n;
                BytesDownloaded := n_downloaded n;
                BytesLeft := int64 (n_left n);
                Event := Values_Get queryValues "event" |}
  | None => malformed queryValues
  end.
Proof.
  unfold announce_numbers.
  pose proof (ParseInt_numeral (Values_Get queryValues "port") 64 (or_intror eq_refl)) as Hp.
  pose proof (ParseInt_numeral (Values_Get queryValues "ip") 32 (or_introl eq_refl)) as Hi.
  pose proof (ParseInt_numeral (Values_Get queryValues "downloaded") 64
                (or_intror eq_refl)) as Hd.
  pose proof (ParseInt_numeral (Values_Get queryValues "uploaded") 64
                (or_intror eq_refl)) as Hu.
  pose proof (ParseUint_numeral (Values_Get queryValues "left")) as Hl.
  change (2 ^ (64 - 1)) with (2 ^ 63) in *. change (2 ^ (32 - 1)) with (2 ^ 31) in *.
  assert (Hbad : forall f, (parse_field f queryValues).2 <> None -> malformed queryValues).
  { intros f Hf. destruct (parse_field f queryValues).2 as [e|] eqn:He; [|done].
    by exists f, e. }
  destruct (numeral_in _ _ (signed_decimal (Values_Get queryValues "port"))) as [p|] eqn:Ep;
    [|by apply (Hbad F_port)].
  destruct (numeral_in _ _ (signed_decimal (Values_Get queryValues "ip"))) as [i|] eqn:Ei;
    [|by apply (Hbad F_ip)].
  destruct (numeral_in _ _ (signed_decimal (Values_Get queryValues "downloaded")))
    as [d|] eqn:Ed; [|by apply (Hbad F_downloaded)].
  destruct (numeral_in _ _ (signed_decimal (Values_Get queryValues "uploaded")))
    as [u|] eqn:Eu; [|by apply (Hbad F_uploaded)].
  destruct (numeral_in _ _ (unsigned_decimal (Values_Get queryValues "left")))
    as [l|] eqn:El; [|by apply (Hbad F_left)].
  unfold announce_peer, validation_error, parse_field.
  rewrite Hp, Hi, Hd, Hu, Hl. simpl.
  apply numeral_in_Some in Ei as [_ Hr]. by rewrite (int32_small i Hr).
Qed.

(** The validation of the handler against the numerals.  The request is
    accepted exactly when port, downloaded and uploaded are signed
    decimal numerals of 64 bits, ip one of 32 bits, and left an unsigned
    one of 64 bits; the first call is then Update, with the record made
    of these numbers, and otherwise no call is made. *)
Theorem announce_validation_numerals {W} (webApp : webAppStruct W) w r σ :
  let q := URL_Query r in
  let res := run (GetAnnounceHandler webApp w r) σ in
  match announce_numbers q with
  | Some n =>
      exists rest,
        calls res.2
        = Call_Update
            {| InfoHash := hex.EncodeToString (Values_Get q "info_hash");
               PeerID := hex.EncodeToString (Values_Get q "peer_id");
               IP := utils.IP_String (utils.Int32toIP (n_ip n));
               Port := n_port n;
               DC := Values_Get q "dc";
               BytesUploaded := n_uploaded n;
               BytesDownloaded := n_downloaded n;
               BytesLeft := int64 (n_left n);
               Event := Values_Get q "event" |} :: rest
  | None =>
      refused_in_validation res /\ world res.2 = σ
  end.
Proof.
  intros q res. pose proof (announce_numbers_peer q) as H.
  destruct (announce_numbers q) as [n|].
  - destruct (GetAnnounceHandler_run webApp w r _ σ H); simpl; eauto.
  - destruct (GetAnnounceHandler_malformed webApp w r σ H) as (e & _ & Hr).
    subst res. rewrite Hr. unfold refused_in_validation. simpl. eauto.
Qed.

Example announce_numbers_scenario :
  announce_numbers (URL_Query (Fake.request Fake.scenario))
  = Some {| n_port := 6881; n_ip := 2130706433; n_downloaded := 0;
            n_uploaded := 0; n_left := 1000 |}.
Proof. vm_compute. reflexivity. Qed.

(** A numeric parameter that is missing, or empty, refuses the request:
    unlike info_hash and peer_id, the five are required. *)
Theorem announce_numeric_parameter_required {W} (webApp : webAppStruct W) w r σ key :
  In key ["port"; "ip"; "downloaded"; "uploaded"; "left"] ->
  URL_Query r !! key = None \/ Values_Get (URL_Query r) key = "" ->
  let res := run (GetAnnounceHandler webApp w r) σ in
  refused_in_validation res /\ world res.2 = σ /\
  code res.1 = Some StatusInternalServerError.
Proof.
  intros Hkey Hmiss res.
  assert (Hget : Values_Get (URL_Query r) key = "").
  { destruct Hmiss as [Hm|]; [by apply Values_Get_missing | done]. }
  assert (Hm : malformed (URL_Query r)).
  { simpl in Hkey.
    destruct Hkey as [<-|[<-|[<-|[<-|[<-|[]]]]]];
      [exists F_port | exists F_ip | exists F_downloaded | exists F_uploaded
       | exists F_left]; simpl; rewrite Hget; eexists; reflexivity. }
  destruct (GetAnnounceHandler_malformed webApp w r σ Hm) as (e & _ & Hr).
  subst res. rewrite Hr. unfold refused_in_validation. simpl. eauto.
Qed.

Lemma announce_without_ip :
  let r := Fake.request
             [("info_hash", "AB"); ("peer_id", "CD"); ("port", "6881");
              ("downloaded", "0"); ("uploaded", "0"); ("left", "1000")] in
  let res := run (GetAnnounceHandler (Fake.webApp Fake.no_faults) newResponseWriter r) [] in
  refused_in_validation res /\ world res.2 = [] /\
  code res.1 = Some StatusInternalServerError.
Proof.
  refine (announce_numeric_parameter_required
            (Fake.webApp Fake.no_faults) newResponseWriter
            (Fake.request
               [("info_hash", "AB"); ("peer_id", "CD"); ("port", "6881");
                ("downloaded", "0"); ("uploaded", "0"); ("left", "1000")])
            [] "ip" _ _).
  - simpl. tauto.
  - left. vm_compute. reflexivity.
Defined.

(** ** The storage keys *)

(** The byte two hex digits stand for (used to invert the encoding). *)
Definition unhex (c : ascii) : Z :=
  let k := byte_code c in
  if (48 <=? k) && (k <=? 57) then k - 48
  else if (97 <=? k) && (k <=? 102) then k - 97 + 10
  else 0.

Fixpoint hex_decode (s : string) : string :=
  match s with
  | String hi (String lo rest) =>
      String (ascii_of_N (Z.to_N (unhex hi * 16 + unhex lo))) (hex_decode rest)
  | _ => EmptyString
  end.

Lemma hex_decode_byte (c : ascii) :
  ascii_of_N
    (Z.to_N (unhex (hex.nibble (Z.shiftr (Z.of_N (N_of_ascii c)) 4)) * 16
             + unhex (hex.nibble (Z.land (Z.of_N (N_of_ascii c)) 15))))
  = c.
Proof. destruct c as [[] [] [] [] [] [] [] []]; vm_compute; reflexivity. Qed.

Lemma hex_decode_EncodeToString s : hex_decode (hex.EncodeToString s) = s.
Proof.
  induction s as [|c s IH]; [reflexivity|].
  simpl. rewrite IH. f_equal. apply hex_decode_byte.
Qed.

Lemma EncodeToString_inj s t :
  hex.EncodeToString s = hex.EncodeToString t -> s = t.
Proof.
  intros H. rewrite <- (hex_decode_EncodeToString s), <- (hex_decode_EncodeToString t).
  by rewrite H.
Qed.

Lemma EncodeToString_length s :
  String.length (hex.EncodeToString s) = (2 * String.length s)%nat.
Proof. induction s as [|c s IH]; simpl; [done | rewrite IH; lia]. Qed.

Definition is_lower_hex (c : ascii) : bool :=
  let k := byte_code c in
  ((48 <=? k) && (k <=? 57)) || ((97 <=? k) && (k <=? 102)).

Fixpoint all_lower_hex (s : string) : bool :=
  match s with
  | EmptyString => true
  | String c s' => is_lower_hex c && all_lower_hex s'
  end.

Lemma EncodeToString_lower_hex s : all_lower_hex (hex.EncodeToString s) = true.
Proof.
  induction s as [|c s IH]; [reflexivity|].
  cbn [hex.EncodeToString all_lower_hex]. rewrite IH.
  destruct c as [[] [] [] [] [] [] [] []]; vm_compute; reflexivity.
Qed.

(** The keys of the record handed to Update determine the raw info_hash
    and peer_id of the request: two requests stored under the same
    InfoHash (or PeerID) sent the same bytes.  A key is twice as long as
    the raw value and is made of the digits 0-9 and a-f. *)
Theorem announce_keys_faithful {W} (webApp : webAppStruct W) w r r' σ σ' peer peer' :
  In (Call_Update peer) (calls (run (GetAnnounceHandler webApp w r) σ).2) ->
  In (Call_Update peer') (calls (run (GetAnnounceHandler webApp w r') σ').2) ->
  (InfoHash peer = InfoHash peer' ->
   Values_Get (URL_Query r) "info_hash" = Values_Get (URL_Query r') "info_hash") /\
  (PeerID peer = PeerID peer' ->
   Values_Get (URL_Query r) "peer_id" = Values_Get (URL_Query r') "peer_id") /\
  String.length (InfoHash peer)
  = (2 * String.length (Values_Get (URL_Query r) "info_hash"))%nat /\
  all_lower_hex (InfoHash peer) = true /\ all_lower_hex (PeerID peer) = true.
Proof.
  intros Hp%Update_call_announce_peer Hp'%Update_call_announce_peer.
  unfold announce_peer in Hp, Hp'.
  destruct (validation_error (URL_Query r)); [discriminate|].
  destruct (validation_error (URL_Query r')); [discriminate|].
  injection Hp as <-. injection Hp' as <-. simpl.
  repeat split; try apply EncodeToString_inj; try apply EncodeToString_lower_hex.
  apply EncodeToString_length.
Qed.

Lemma announce_keys_scenario :
  let r := Fake.request Fake.scenario in
  let r' := Fake.request (Fake.with_param "left" "0" Fake.scenario) in
  (InfoHash scenario_peer = "4142" ->
   Values_Get (URL_Query r) "info_hash" = Values_Get (URL_Query r') "info_hash") /\
  (PeerID scenario_peer = "4344" ->
   Values_Get (URL_Query r) "peer_id" = Values_Get (URL_Query r') "peer_id") /\
  String.length (InfoHash scenario_peer)
  = (2 * String.length (Values_Get (URL_Query r) "info_hash"))%nat /\
  all_lower_hex (InfoHash scenario_peer) = true /\
  all_lower_hex (PeerID scenario_peer) = true.
Proof.
  refine (announce_keys_faithful (Fake.webApp Fake.no_faults) newResponseWriter
            (Fake.request Fake.scenario)
            (Fake.request (Fake.with_param "left" "0" Fake.scenario))
            [] [scenario_peer] scenario_peer
            {| InfoHash := "4142"; PeerID := "4344"; IP := "127.0.0.1"; Port := 6881;
               DC := ""; BytesUploaded := 0; BytesDownloaded := 0; BytesLeft := 0;
               Event := "started" |} _ _).
  - vm_compute. left. reflexivity.
  - vm_compute. left. reflexivity.
Defined.

(** ** The arguments of the later calls *)

(** Read is asked for the swarm of the record just stored, and
    AssignPeerPriority is given the address and the datacenter of that
    record together with the list Read returned: every call after Update
    is about the request's own record. *)
Theorem announce_call_arguments {W} (webApp : webAppStruct W) w r σ :
  let q := URL_Query r in
  let res := run (GetAnnounceHandler webApp w r) σ in
  (forall h, In (Call_Read h) (calls res.2) ->
     h = hex.EncodeToString (Values_Get q "info_hash") /\
     exists peer, calls res.2 !! 0%nat = Some (Call_Update peer) /\ InfoHash peer = h) /\
  (forall ip dc peers, In (Call_AssignPeerPriority ip dc peers) (calls res.2) ->
     dc = Values_Get q "dc" /\
     exists peer σ1 σ2,
       calls res.2 !! 0%nat = Some (Call_Update peer) /\
       ip = IP peer /\ dc = DC peer /\
       Update (datastore webApp) peer σ = (None, σ1) /\
       Read (datastore webApp) (InfoHash peer) σ1 = ((peers, None), σ2)).
Proof.
  intros q res.
  destruct (validation_error q) as [e|] eqn:He.
  { subst res. unfold run. rewrite (GetAnnounceHandler_invalid _ _ _ e) by done.
    simpl. split; intros; tauto. }
  apply well_formed_validation_error, well_formed_announce_peer in He as [peer Hp].
  pose proof (GetAnnounceHandler_run webApp w r peer σ Hp) as Hrun. fold res in Hrun.
  assert (Hrec : InfoHash peer = hex.EncodeToString (Values_Get q "info_hash")
                 /\ DC peer = Values_Get q "dc").
  { unfold announce_peer in Hp. destruct (validation_error q); [discriminate|].
    by injection Hp as <-. }
  destruct Hrec as [Hh Hdc].
  split.
  - intros h Hin.
    destruct Hrun; simpl in Hin;
      repeat (destruct Hin as [Hin|Hin]; try discriminate); try tauto;
      injection Hin as <-; (split; [done|]); exists peer; by simpl.
  - intros ip dc peers Hin.
    destruct Hrun as [e σ1 HU | σ1 l e σ2 HU HR | σ1 l σ2 l' e σ3 HU HR HA
                     | σ1 l σ2 l' σ3 l'' e σ4 HU HR HA HS
                     | σ1 l σ2 l' σ3 l'' σ4 HU HR HA HS];
      simpl in Hin;
      repeat (destruct Hin as [Hin|Hin]; try discriminate); try tauto;
      injection Hin as <- <- <-; (split; [done|]);
      exists peer, σ1, σ2; by simpl.
Qed.

(** ** The headers of the reply *)

Definition Header_Get (key : string) (w : ResponseWriter) : option string :=
  snd <$> List.find (fun kv => String.eqb kv.1 key) (Header w).

Lemma Header_Get_Set key value w : Header_Get key (Header_Set key value w) = Some value.
Proof. unfold Header_Get, Header_Set. simpl. by rewrite String.eqb_refl. Qed.

Lemma Header_Get_Set_ne key key' value w :
  key' <> key -> Header_Get key (Header_Set key' value w) = Header_Get key w.
Proof.
  intros Hne. unfold Header_Get, Header_Set. simpl.
  destruct (String.eqb_spec key' key) as [|_]; [done|].
  f_equal. induction (Header w) as [|[k v] l IH]; [done|].
  rewrite filter_cons. simpl. destruct (decide (k ≠ key')) as [Hk|Hk]; simpl.
  - by destruct (String.eqb k key).
  - destruct (String.eqb_spec k key) as [->|]; [|done].
    exfalso. apply Hk. congruence.
Qed.

Lemma http_Error_headers w msg status :
  Header_Get "Content-Type" (http_Error w msg status) = Some "text/plain; charset=utf-8" /\
  Header_Get "X-Content-Type-Options" (http_Error w msg status) = Some "nosniff".
Proof.
  assert (Header (http_Error w msg status)
          = Header (Header_Set "X-Content-Type-Options" "nosniff"
                      (Header_Set "Content-Type" "text/plain; charset=utf-8" w))) as HH.
  { unfold http_Error. cbn [Header]. apply WriteHeader_fields. }
  unfold Header_Get at 1 2. rewrite HH. split.
  - change (Header_Get "Content-Type"
              (Header_Set "X-Content-Type-Options" "nosniff"
                 (Header_Set "Content-Type" "text/plain; charset=utf-8" w))
            = Some "text/plain; charset=utf-8").
    rewrite Header_Get_Set_ne by done. apply Header_Get_Set.
  - change (Header_Get "X-Content-Type-Options"
              (Header_Set "X-Content-Type-Options" "nosniff"
                 (Header_Set "Content-Type" "text/plain; charset=utf-8" w))
            = Some "nosniff").
    apply Header_Get_Set.
Qed.

(** The value of a header of the reply. *)
Definition reply_Header_Get (key : string) (w : ResponseWriter) : option string :=
  snd <$> List.find (fun kv => String.eqb kv.1 key) (reply_header w).

Lemma http_Error_fresh_reply w msg status :
  sent w = None ->
  reply_status (http_Error w msg status) = status /\
  reply_Header_Get "Content-Type" (http_Error w msg status)
  = Some "text/plain; charset=utf-8" /\
  reply_Header_Get "X-Content-Type-Options" (http_Error w msg status) = Some "nosniff".
Proof.
  intros Hw. destruct (http_Error_fresh w msg status Hw) as [Hs Hh].
  split; [exact Hs|]. unfold reply_Header_Get. rewrite Hh.
  apply http_Error_headers.
Qed.

(** The reply of the encoding stage, on a writer that has sent
    nothing.  When the encoder has written, the reply is 200 and
    text/html, whether it then fails or not; when it fails without
    having written, the reply is that of http.Error. *)
Lemma encode_reply_reply {W} (webApp : webAppStruct W) w peerInfos bytes err :
  sent w = None ->
  bencode_Marshal webApp
    {| Interval := appCfg_AnnounceInterval webApp; Peers := peerInfos |} = (bytes, err) ->
  let w' := encode_reply webApp w peerInfos in
  body w' = body w +:+ bytes /\
  code w' = (if err is Some _ then Some StatusInternalServerError else code w) /\
  match err, bytes with
  | Some _, EmptyString =>
      reply_status w' = 500 /\
      reply_Header_Get "Content-Type" w' = Some "text/plain; charset=utf-8" /\
      reply_Header_Get "X-Content-Type-Options" w' = Some "nosniff"
  | _, _ =>
      reply_status w' = 200 /\
      reply_Header_Get "Content-Type" w' = Some "text/html; charset=utf-8"
  end.
Proof.
  intros Hw HM. unfold encode_reply. rewrite HM.
  set (w1 := Header_Set "Content-Type" "text/html; charset=utf-8" w).
  assert (Hw1 : sent w1 = None) by exact Hw.
  assert (Hct : snd <$> List.find (fun kv => String.eqb kv.1 "Content-Type") (Header w1)
                = Some "text/html; charset=utf-8") by apply (Header_Get_Set _ _ w).
  destruct (Marshal_Write_fields bytes w1) as (HH & HC & HB).
  split; [|split].
  - destruct err; [rewrite http_Error_body|]; exact HB.
  - destruct err; [reflexivity | exact HC].
  - destruct bytes as [|c bytes].
    + cbn [Marshal_Write]. destruct err as [e|].
      * by apply http_Error_fresh_reply.
      * unfold reply_status, reply_Header_Get, reply_header. by rewrite Hw1.
    + pose proof (Marshal_Write_sent (String c bytes) w1 Hw1 ltac:(done)) as Hs.
      destruct err as [e|].
      * destruct (http_Error_sent _ (err_Error e) StatusInternalServerError _ _ Hs)
          as [H1 H2].
        unfold reply_Header_Get. by rewrite H1, H2.
      * unfold reply_status, reply_Header_Get, reply_header. by rewrite Hs.
Qed.

(** The status and the type of the reply of an announce, on a writer
    that has sent nothing.  A run that ends without http.Error answers
    200 with text/html; charset=utf-8.  A run that ends with http.Error
    answers 500 with text/plain; charset=utf-8 and nosniff, unless the
    encoder had written before it failed (the body has grown): the
    reply is then 200 with text/html; charset=utf-8, as sent with the
    first bytes. *)
Theorem announce_content_type {W} (webApp : webAppStruct W) w r σ :
  let w' := (run (GetAnnounceHandler webApp w r) σ).1 in
  code w = None -> sent w = None ->
  match code w' with
  | None =>
      reply_status w' = 200 /\
      reply_Header_Get "Content-Type" w' = Some "text/html; charset=utf-8"
  | Some _ =>
      if decide (body w' = body w) then
        reply_status w' = 500 /\
        reply_Header_Get "Content-Type" w' = Some "text/plain; charset=utf-8" /\
        reply_Header_Get "X-Content-Type-Options" w' = Some "nosniff"
      else
        reply_status w' = 200 /\
        reply_Header_Get "Content-Type" w' = Some "text/html; charset=utf-8"
  end.
Proof.
  intros w' Hc Hw.
  assert (Herr : forall msg,
             let w1 := http_Error w msg StatusInternalServerError in
             match code w1 with
             | None =>
                 reply_status w1 = 200 /\
                 reply_Header_Get "Content-Type" w1 = Some "text/html; charset=utf-8"
             | Some _ =>
                 if decide (body w1 = body w) then
                   reply_status w1 = 500 /\
                   reply_Header_Get "Content-Type" w1 = Some "text/plain; charset=utf-8" /\
                   reply_Header_Get "X-Content-Type-Options" w1 = Some "nosniff"
                 else
                   reply_status w1 = 200 /\
                   reply_Header_Get "Content-Type" w1 = Some "text/html; charset=utf-8"
             end).
  { intros msg w1. cbn [code w1 http_Error].
    assert (body w1 = body w) as Hb by apply http_Error_body.
    destruct (decide (body w1 = body w)); [|done].
    by apply http_Error_fresh_reply. }
  destruct (validation_error (URL_Query r)) as [e|] eqn:He.
  { subst w'. unfold run. rewrite (GetAnnounceHandler_invalid _ _ _ e) by done.
    apply Herr. }
  apply well_formed_validation_error, well_formed_announce_peer in He as [peer Hp].
  pose proof (GetAnnounceHandler_run webApp w r peer σ Hp) as Hrun.
  subst w'. destruct Hrun; cbn [fst]; try apply Herr.
  destruct (bencode_Marshal webApp
              {| Interval := appCfg_AnnounceInterval webApp; Peers := l'' |})
    as [bytes err] eqn:HM.
  destruct (encode_reply_reply webApp w l'' bytes err Hw HM) as (Hb & Hcode & Hres).
  rewrite Hcode, Hb. destruct err as [e|].
  - destruct bytes as [|c bytes].
    + rewrite string_app_nil_r. by destruct (decide (body w = body w)).
    + destruct (decide (body w +:+ String c bytes = body w)) as [Heq|_]; [|done].
      by apply string_app_inv_nil in Heq.
  - rewrite Hc. by destruct bytes.
Qed.

Lemma announce_content_type_scenario :
  let w' := (run (GetAnnounceHandler (Fake.webApp Fake.no_faults) newResponseWriter
                    (Fake.request Fake.scenario)) []).1 in
  reply_status w' = 200 /\
  reply_Header_Get "Content-Type" w' = Some "text/html; charset=utf-8".
Proof.
  exact (announce_content_type (Fake.webApp Fake.no_faults) newResponseWriter
           (Fake.request Fake.scenario) [] eq_refl eq_refl).
Defined.

Lemma successful_scenario_body :
  let res := run (GetAnnounceHandler (Fake.webApp Fake.no_faults) newResponseWriter
                    (Fake.request Fake.scenario)) [] in
  exists peers limit sampled σ3 σ4 bytes,
    last (calls res.2) = Some (Call_SamplePeers peers limit) /\
    SamplePeers (policy (Fake.webApp Fake.no_faults)) peers limit σ3
    = ((sampled, None), σ4) /\
    bencode_Marshal (Fake.webApp Fake.no_faults)
      {| Interval := appCfg_AnnounceInterval (Fake.webApp Fake.no_faults);
         Peers := sampled |}
    = (bytes, None) /\
    body res.1 = body newResponseWriter +:+ bytes.
Proof.
  exact (successful_reply_body (Fake.webApp Fake.no_faults) newResponseWriter
           (Fake.request Fake.scenario) [] eq_refl eq_refl).
Defined.

Lemma announce_call_arguments_scenario :
  "4142" = hex.EncodeToString (Values_Get (URL_Query (Fake.request Fake.scenario)) "info_hash") /\
  exists peer,
    calls (run (GetAnnounceHandler (Fake.webApp Fake.no_faults) newResponseWriter
                  (Fake.request Fake.scenario)) []).2 !! 0%nat
    = Some (Call_Update peer) /\
    InfoHash peer = "4142".
Proof.
  refine (proj1
            (announce_call_arguments (Fake.webApp Fake.no_faults) newResponseWriter
               (Fake.request Fake.scenario) [])
            "4142" _).
  vm_compute. right. left. reflexivity.
Defined.

(** * The torrent and manifest endpoints

    ** url.QueryUnescape

    A first pass looks for a percent sign that is not followed by two
    hex digits and fails with the offending text (three bytes at most);
    a second pass replaces each escape by its byte and each plus sign
    by a space. *)
Module url.

Definition ishex (c : ascii) : bool :=
  let k := byte_code c in
  ((48 <=? k) && (k <=? 57)) || ((97 <=? k) && (k <=? 102))
  || ((65 <=? k) && (k <=? 70)).

Definition unhex (c : ascii) : Z :=
  let k := byte_code c in
  if (48 <=? k) && (k <=? 57) then k - 48
  else if (97 <=? k) && (k <=? 102) then k - 97 + 10
  else if (65 <=? k) && (k <=? 70) then k - 65 + 10
  else 0.

(** [s[:3]] when [s] is longer than three bytes, [s] otherwise. *)
Definition first3 (s : string) : string :=
  match s with
  | String a (String b (String c _)) => String a (String b (String c EmptyString))
  | _ => s
  end.

(** The first pass: the EscapeError, if any. *)
Fixpoint check (s : string) : option string :=
  match s with
  | EmptyString => None
  | String c rest =>
      if (c =? "%")%char then
        match rest with
        | String a (String b rest') =>
            if ishex a && ishex b then check rest' else Some (first3 s)
        | _ => Some (first3 s)
        end
      else check rest
  end.

(** The second pass, on a string the first pass has accepted. *)
Fixpoint translate (s : string) : string :=
  match s with
  | EmptyString => EmptyString
  | String c rest =>
      if (c =? "%")%char then
        match rest with
        | String a (String b rest') =>
            String (ascii_of_N (Z.to_N (Z.lor (Z.shiftl (unhex a) 4) (unhex b))))
              (translate rest')
        | _ => EmptyString
        end
      else if (c =? "+")%char then String " "%char (translate rest)
      else String c (translate rest)
  end.

(** The string and the error (an EscapeError, given by its text). *)
Definition QueryUnescape (s : string) : string * option string :=
  match check s with
  | Some e => ("", Some e)
  | None => (translate s, None)
  end.

End url.

Example QueryUnescape_examples :
  url.QueryUnescape "library%2Fredis%3A3.2+x" = ("library/redis:3.2 x", None) /\
  url.QueryUnescape "a%zzb" = ("", Some "%zz") /\
  url.QueryUnescape "100%" = ("", Some "%") /\
  url.QueryUnescape "" = ("", None).
Proof. vm_compute. repeat split. Qed.

(** ** The writer of the other handlers

    These handlers call WriteHeader and Write themselves.  The writer is
    the recorder of net/http/httptest: the first WriteHeader fixes the
    status, a Write before any WriteHeader fixes it to 200, and the
    bytes written accumulate.  (Write guesses a Content-Type only when
    none is set; each handler sets one first.)  A body is kept as the
    pieces it was written in, the text of an error as the error. *)
Inductive Text :=
| Lit (s : string)
| Error_text (err : error)
| EscapeError_text (s : string).

Module httptest.

Record ResponseRecorder := {
  Code : Z;
  HeaderMap : list (string * string);
  Body : list Text;
  wroteHeader : bool
}.

Definition NewRecorder : ResponseRecorder :=
  {| Code := 200; HeaderMap := []; Body := []; wroteHeader := false |}.

Definition Header_Set (key value : string) (rw : ResponseRecorder) : ResponseRecorder :=
  {| Code := Code rw;
     HeaderMap := (key, value) :: List.filter (fun kv => negb (String.eqb kv.1 key))
                                    (HeaderMap rw);
     Body := Body rw; wroteHeader := wroteHeader rw |}.

Definition WriteHeader (status : Z) (rw : ResponseRecorder) : ResponseRecorder :=
  if wroteHeader rw then rw
  else {| Code := status; HeaderMap := HeaderMap rw; Body := Body rw;
          wroteHeader := true |}.

Definition Write (buf : list Text) (rw : ResponseRecorder) : ResponseRecorder :=
  let rw := WriteHeader 200 rw in
  {| Code := Code rw; HeaderMap := HeaderMap rw; Body := Body rw ++ buf;
     wroteHeader := wroteHeader rw |}.

End httptest.

Definition StatusOK : Z := 200.
Definition StatusBadRequest : Z := 400.
Definition StatusNotFound : Z := 404.

(** ** The rest of the datastore *)
Module storage.

(** storage.TorrentInfo and storage.Manifest, with the fields the
    handlers use (lines 247, 264-267, 328, 389); the declarations are
    not among the sources at hand. *)
Record TorrentInfo := {
  TorrentName : string;
  InfoHash : string
}.

Record Manifest := {
  TagName : string;
  Manifest_ : string;
  Flags : Z
}.

(** A nil pointer is [None]. *)
Record Storage (W : Type) := {
  ReadTorrent : string -> W -> (option TorrentInfo * option error) * W;
  CreateTorrent : TorrentInfo -> W -> option error * W;
  ReadManifest : string -> W -> (option Manifest * option error) * W;
  UpdateManifest : Manifest -> W -> option error * W
}.
Arguments ReadTorrent {W}.
Arguments CreateTorrent {W}.
Arguments ReadManifest {W}.
Arguments UpdateManifest {W}.

Inductive Call :=
| Call_ReadTorrent (name : string)
| Call_CreateTorrent (info : TorrentInfo)
| Call_ReadManifest (name : string)
| Call_UpdateManifest (manifest : Manifest).

End storage.

(** A request that has gone through the router: chi keeps the
    parameters of the route, and [Body_ReadAll] is what
    ioutil.ReadAll(r.Body) returns. *)
Record RoutedRequest := {
  request : Request;
  URLParams : gmap string string;
  Body_ReadAll : string * option error
}.

Definition chi_URLParam (r : RoutedRequest) (key : string) : string :=
  default "" (URLParams r !! key).

(** ** The four handlers

    Each returns the writer, the state of the datastore and the calls
    made to it.  [json_Unmarshal] is the decoder of PostManifestHandler:
    only its error matters. *)
Section Endpoints.
Context {W : Type} (datastore : storage.Storage W).
Context (json_Unmarshal : string -> option error).

Definition GetInfoHashHandler (w : httptest.ResponseRecorder) (r : Request) (σ : W)
  : httptest.ResponseRecorder * W * list storage.Call :=
  let w := httptest.Header_Set "Content-Type" "text/html; charset=utf-8" w in
  let queryValues := URL_Query r in
  let name := Values_Get queryValues "name" in
  if String.eqb name "" then
    let w := httptest.WriteHeader StatusBadRequest w in
    let w := httptest.Write
               [Lit "Failed to get torrent info hash: no torrent name specified"] w in
    (w, σ, [])
  else
  let '((info, err), σ) := storage.ReadTorrent datastore name σ in
  let made := [storage.Call_ReadTorrent name] in
  match err with
  | Some err =>
      let w := httptest.WriteHeader StatusInternalServerError w in
      let w := httptest.Write
                 [Lit "Failed to get torrent info hash: "; Error_text err] w in
      (w, σ, made)
  | None =>
  match info with
  | None =>
      let w := httptest.WriteHeader StatusNotFound w in
      let w := httptest.Write
                 [Lit ("Failed to get torrent info hash: name " +:+ name
                         +:+ " not found")] w in
      (w, σ, made)
  | Some info =>
      let w := httptest.WriteHeader StatusOK w in
      let w := httptest.Write [Lit (storage.InfoHash info)] w in
      (w, σ, made)
  end end.

Definition PostInfoHashHandler (w : httptest.ResponseRecorder) (r : Request) (σ : W)
  : httptest.ResponseRecorder * W * list storage.Call :=
  let w := httptest.Header_Set "Content-Type" "text/html; charset=utf-8" w in
  let queryValues := URL_Query r in
  let name := Values_Get queryValues "name" in
  let infohash := Values_Get queryValues "info_hash" in
  if String.eqb name "" || String.eqb infohash "" then
    let w := httptest.WriteHeader StatusBadRequest w in
    let w := httptest.Write [Lit "Failed to create torrent: incomplete query"] w in
    (w, σ, [])
  else
  let info := {| storage.TorrentName := name; storage.InfoHash := infohash |} in
  let '(err, σ) := storage.CreateTorrent datastore info σ in
  let made := [storage.Call_CreateTorrent info] in
  match err with
  | Some err =>
      let w := httptest.WriteHeader StatusInternalServerError w in
      let w := httptest.Write [Lit "Failed to create torrent: "; Error_text err] w in
      (w, σ, made)
  | None =>
      let w := httptest.WriteHeader StatusOK w in
      let w := httptest.Write [Lit "Created"] w in
      (w, σ, made)
  end.

Definition GetManifestHandler (w : httptest.ResponseRecorder) (r : RoutedRequest)
  (σ : W) : httptest.ResponseRecorder * W * list storage.Call :=
  let w := httptest.Header_Set "Content-Type" "text/html; charset=utf-8" w in
  let name := chi_URLParam r "name" in
  if (String.length name =? 0)%nat then
    let w := httptest.WriteHeader StatusBadRequest w in
    let w := httptest.Write [Lit "Failed to parse an empty tag name"] w in
    (w, σ, [])
  else
  let '(name, err) := url.QueryUnescape name in
  match err with
  | Some err =>
      let w := httptest.WriteHeader StatusBadRequest w in
      let w := httptest.Write
                 [Lit ("cannot unescape manifest name: " +:+ name +:+ ", error: ");
                  EscapeError_text err] w in
      (w, σ, [])
  | None =>
  let '((manifest, err), σ) := storage.ReadManifest datastore name σ in
  let made := [storage.Call_ReadManifest name] in
  match err with
  | Some err =>
      let w := httptest.WriteHeader StatusBadRequest w in
      let w := httptest.Write
                 [Lit ("cannot unescape manifest name: " +:+ name +:+ ", error: ");
                  Error_text err] w in
      (w, σ, made)
  | None =>
  match manifest with
  | None =>
      let w := httptest.WriteHeader StatusNotFound w in
      (w, σ, made)
  | Some manifest =>
      let w := httptest.Write [Lit (storage.Manifest_ manifest)] w in
      let w := httptest.WriteHeader StatusOK w in
      (w, σ, made)
  end end end.

Definition PostManifestHandler (w : httptest.ResponseRecorder) (r : RoutedRequest)
  (σ : W) : httptest.ResponseRecorder * W * list storage.Call :=
  let w := httptest.Header_Set "Content-Type" "text/html; charset=utf-8" w in
  let name := chi_URLParam r "name" in
  if (String.length name =? 0)%nat then
    let w := httptest.WriteHeader StatusBadRequest w in
    let w := httptest.Write [Lit "Failed to parse a tag name"] w in
    (w, σ, [])
  else
  let '(name, err) := url.QueryUnescape name in
  match err with
  | Some err =>
      let w := httptest.WriteHeader StatusBadRequest w in
      let w := httptest.Write
                 [Lit ("cannot unescape manifest name: " +:+ name +:+ ", error: ");
                  EscapeError_text err] w in
      (w, σ, [])
  | None =>
  let '(manifest, err) := Body_ReadAll r in
  match err with
  | Some err =>
      let w := httptest.WriteHeader StatusInternalServerError w in
      let w := httptest.Write
                 [Lit ("Could not read manifest from a post payload for " +:+ name
                         +:+ " and error: ");
                  Error_text err] w in
      (w, σ, [])
  | None =>
  match json_Unmarshal manifest with
  | Some err =>
      let w := httptest.WriteHeader StatusBadRequest w in
      let w := httptest.Write
                 [Lit ("Mnifest is an invalid json for " +:+ name +:+ ", manifest "
                         +:+ manifest +:+ " and error: ");
                  Error_text err] w in
      (w, σ, [])
  | None =>
  let m := {| storage.TagName := name; storage.Manifest_ := manifest;
              storage.Flags := 0 |} in
  let '(err, σ) := storage.UpdateManifest datastore m σ in
  let made := [storage.Call_UpdateManifest m] in
  match err with
  | Some err =>
      let w := httptest.WriteHeader StatusInternalServerError w in
      let w := httptest.Write
                 [Lit ("Failed to update manifest for " +:+ name +:+ " with manifest "
                         +:+ manifest +:+ " and error: ");
                  Error_text err] w in
      (w, σ, made)
  | None =>
      let w := httptest.WriteHeader StatusOK w in
      (w, σ, made)
  end end end end.

End Endpoints.

(** ** Test doubles for the endpoints *)
Module FakeStore.

Definition W : Type := gmap string storage.TorrentInfo * gmap string storage.Manifest.

Definition empty : W := (∅, ∅).

(** A datastore of two maps; [fail] makes every method fail. *)
Definition datastore (fail : option error) : storage.Storage W :=
  {| storage.ReadTorrent := fun name σ =>
       match fail with
       | Some e => ((None, Some e), σ)
       | None => ((σ.1 !! name, None), σ)
       end;
     storage.CreateTorrent := fun info σ =>
       match fail with
       | Some e => (Some e, σ)
       | None => (None, (<[storage.TorrentName info := info]> σ.1, σ.2))
       end;
     storage.ReadManifest := fun name σ =>
       match fail with
       | Some e => ((None, Some e), σ)
       | None => ((σ.2 !! name, None), σ)
       end;
     storage.UpdateManifest := fun m σ =>
       match fail with
       | Some e => (Some e, σ)
       | None => (None, (σ.1, <[storage.TagName m := m]> σ.2))
       end |}.

(** A stand-in for json.Unmarshal into a map: it takes what starts
    with a brace. *)
Definition json_Unmarshal (data : string) : option error :=
  match data with
  | String "{" _ => None
  | _ => Some (errors_New "json: cannot unmarshal")
  end.

Definition routed (name body : string) : RoutedRequest :=
  {| request := Fake.request [];
     URLParams := {[ "name" := name ]};
     Body_ReadAll := (body, None) |}.

End FakeStore.

(** ** GetInfoHashHandler and PostInfoHashHandler *)

Lemma recorder_reply w status buf :
  httptest.wroteHeader w = false ->
  let w' := httptest.Write buf
              (httptest.WriteHeader status
                 (httptest.Header_Set "Content-Type" "text/html; charset=utf-8" w)) in
  httptest.Code w' = status /\ httptest.Body w' = (httptest.Body w ++ buf)%list /\
  httptest.wroteHeader w' = true.
Proof.
  intros Hw. unfold httptest.Write, httptest.WriteHeader, httptest.Header_Set.
  simpl. rewrite Hw. simpl. done.
Qed.

(** GetInfoHashHandler looks the name up once, and not at all when the
    name is missing or empty (400).  Otherwise the status tells the
    three results of the lookup apart: 500 for an error, 404 for no
    torrent, and 200 with the stored info hash, as stored, for body. *)
Theorem GetInfoHashHandler_lookup {W} (datastore : storage.Storage W) w r σ :
  httptest.wroteHeader w = false ->
  let name := Values_Get (URL_Query r) "name" in
  let '(w', σ', made) := GetInfoHashHandler datastore w r σ in
  if String.eqb name "" then
    made = [] /\ σ' = σ /\ httptest.Code w' = 400
  else
    made = [storage.Call_ReadTorrent name] /\
    exists info err,
      storage.ReadTorrent datastore name σ = ((info, err), σ') /\
      match err, info with
      | Some e, _ => httptest.Code w' = 500
      | None, None => httptest.Code w' = 404
      | None, Some i =>
          httptest.Code w' = 200 /\
          httptest.Body w' = (httptest.Body w ++ [Lit (storage.InfoHash i)])%list
      end.
Proof.
  intros Hw name. unfold GetInfoHashHandler. fold name.
  destruct (String.eqb name "").
  { pose proof (recorder_reply w StatusBadRequest
                  [Lit "Failed to get torrent info hash: no torrent name specified"] Hw)
      as (Hc & _). cbv zeta in Hc. by rewrite Hc. }
  destruct (storage.ReadTorrent datastore name σ) as [[info err] σ'] eqn:HR.
  destruct err as [e|]; [|destruct info as [i|]];
    (split; [reflexivity|]); eexists _, _; (split; [reflexivity|]);
    match goal with
    | |- context [httptest.Write ?buf (httptest.WriteHeader ?st _)] =>
        pose proof (recorder_reply w st buf Hw) as (Hc & Hb & _)
    end; cbv zeta in Hc, Hb; rewrite ?Hc, ?Hb; done.
Qed.

Lemma GetInfoHashHandler_no_name :
  let '(w', σ', made) :=
    GetInfoHashHandler (FakeStore.datastore None) httptest.NewRecorder
      (Fake.request [("info_hash", "AB")]) FakeStore.empty in
  made = [] /\ σ' = FakeStore.empty /\ httptest.Code w' = 400.
Proof.
  exact (GetInfoHashHandler_lookup (FakeStore.datastore None) httptest.NewRecorder
           (Fake.request [("info_hash", "AB")]) FakeStore.empty eq_refl).
Defined.

(** PostInfoHashHandler wants both name and info_hash: without one of
    them it answers 400 and leaves the datastore alone.  With both it
    makes one CreateTorrent call, with the two values as they were
    sent, and answers 200 or, when that call fails, 500. *)
Theorem PostInfoHashHandler_create {W} (datastore : storage.Storage W) w r σ :
  httptest.wroteHeader w = false ->
  let name := Values_Get (URL_Query r) "name" in
  let infohash := Values_Get (URL_Query r) "info_hash" in
  let '(w', σ', made) := PostInfoHashHandler datastore w r σ in
  if String.eqb name "" || String.eqb infohash "" then
    made = [] /\ σ' = σ /\ httptest.Code w' = 400
  else
    let info := {| storage.TorrentName := name; storage.InfoHash := infohash |} in
    made = [storage.Call_CreateTorrent info] /\
    exists err,
      storage.CreateTorrent datastore info σ = (err, σ') /\
      httptest.Code w' = (if err is Some _ then 500 else 200).
Proof.
  intros Hw name infohash. unfold PostInfoHashHandler. fold name infohash.
  destruct (_ || _).
  { pose proof (recorder_reply w StatusBadRequest
                  [Lit "Failed to create torrent: incomplete query"] Hw) as (Hc & _).
    cbv zeta in Hc. by rewrite Hc. }
  destruct (storage.CreateTorrent datastore _ σ) as [err σ'] eqn:HC.
  destruct err as [e|]; cbv zeta; (split; [reflexivity|]); eexists; (split; [reflexivity|]);
    match goal with
    | |- context [httptest.Write ?buf (httptest.WriteHeader ?st _)] =>
        pose proof (recorder_reply w st buf Hw) as (Hc & _)
    end; cbv zeta in Hc; by rewrite Hc.
Qed.

Lemma PostInfoHashHandler_no_info_hash :
  let '(w', σ', made) :=
    PostInfoHashHandler (FakeStore.datastore None) httptest.NewRecorder
      (Fake.request [("name", "ubuntu")]) FakeStore.empty in
  made = [] /\ σ' = FakeStore.empty /\ httptest.Code w' = 400.
Proof.
  exact (PostInfoHashHandler_create (FakeStore.datastore None) httptest.NewRecorder
           (Fake.request [("name", "ubuntu")]) FakeStore.empty eq_refl).
Defined.

Lemma PostInfoHashHandler_200 {W} (datastore : storage.Storage W) w r σ :
  httptest.wroteHeader w = false ->
  httptest.Code (PostInfoHashHandler datastore w r σ).1.1 = 200 ->
  String.eqb (Values_Get (URL_Query r) "name") "" = false /\
  storage.CreateTorrent datastore
    {| storage.TorrentName := Values_Get (URL_Query r) "name";
       storage.InfoHash := Values_Get (URL_Query r) "info_hash" |} σ
  = (None, (PostInfoHashHandler datastore w r σ).1.2).
Proof.
  intros Hw. unfold PostInfoHashHandler.
  destruct (String.eqb (Values_Get (URL_Query r) "name") "" || _) eqn:Hinc.
  { pose proof (recorder_reply w StatusBadRequest
                  [Lit "Failed to create torrent: incomplete query"] Hw) as (Hc & _).
    cbv zeta in Hc. cbn [fst]. rewrite Hc. discriminate. }
  apply orb_false_iff in Hinc as [Hn _].
  destruct (storage.CreateTorrent datastore _ σ) as [[e|] σ'] eqn:HC; cbn [fst snd].
  - match goal with
    | |- context [httptest.Write ?buf (httptest.WriteHeader ?st _)] =>
        pose proof (recorder_reply w st buf Hw) as (Hc & _)
    end. cbv zeta in Hc. rewrite Hc. discriminate.
  - done.
Qed.

Lemma GetInfoHashHandler_found {W} (datastore : storage.Storage W) w r σ i σ' :
  httptest.wroteHeader w = false ->
  String.eqb (Values_Get (URL_Query r) "name") "" = false ->
  storage.ReadTorrent datastore (Values_Get (URL_Query r) "name") σ
  = ((Some i, None), σ') ->
  let w' := (GetInfoHashHandler datastore w r σ).1.1 in
  httptest.Code w' = 200 /\
  httptest.Body w' = (httptest.Body w ++ [Lit (storage.InfoHash i)])%list.
Proof.
  intros Hw Hn HR. unfold GetInfoHashHandler. rewrite Hn, HR. cbn [fst].
  pose proof (recorder_reply w StatusOK [Lit (storage.InfoHash i)] Hw) as (Hc & Hb & _).
  cbv zeta in Hc, Hb. by rewrite Hc, Hb.
Qed.

(** Registering a torrent and asking for it.  Over a datastore that
    returns from ReadTorrent what CreateTorrent stored under the name,
    a successful post followed by a get of the same name answers 200
    with, for body, the info_hash of the post, byte for byte. *)
Theorem infohash_post_then_get {W} (datastore : storage.Storage W) w r_post r_get σ :
  (forall info σ0 σ1,
      storage.CreateTorrent datastore info σ0 = (None, σ1) ->
      exists σ2,
        storage.ReadTorrent datastore (storage.TorrentName info) σ1
        = ((Some info, None), σ2)) ->
  httptest.wroteHeader w = false ->
  Values_Get (URL_Query r_get) "name" = Values_Get (URL_Query r_post) "name" ->
  let '(w1, σ1, _) := PostInfoHashHandler datastore w r_post σ in
  httptest.Code w1 = 200 ->
  let '(w2, _, _) := GetInfoHashHandler datastore w r_get σ1 in
  httptest.Code w2 = 200 /\
  httptest.Body w2
  = (httptest.Body w ++ [Lit (Values_Get (URL_Query r_post) "info_hash")])%list.
Proof.
  intros Hlaw Hw Hname.
  pose proof (PostInfoHashHandler_200 datastore w r_post σ Hw) as Hpost.
  destruct (PostInfoHashHandler datastore w r_post σ) as [[w1 σ1] made1].
  cbn [fst snd] in Hpost. intros H200. destruct (Hpost H200) as [Hn HC].
  apply Hlaw in HC as [σ2 HR]. cbn [storage.TorrentName] in HR.
  rewrite <- Hname in Hn, HR.
  pose proof (GetInfoHashHandler_found datastore w r_get σ1 _ σ2 Hw Hn HR) as Hget.
  destruct (GetInfoHashHandler datastore w r_get σ1) as [[w2 σ2'] made2].
  exact Hget.
Qed.

Lemma infohash_post_then_get_ubuntu :
  let r := Fake.request [("name", "ubuntu"); ("info_hash", "AB")] in
  let '(w1, σ1, _) :=
    PostInfoHashHandler (FakeStore.datastore None) httptest.NewRecorder r
      FakeStore.empty in
  httptest.Code w1 = 200 ->
  let '(w2, _, _) :=
    GetInfoHashHandler (FakeStore.datastore None) httptest.NewRecorder r σ1 in
  httptest.Code w2 = 200 /\ httptest.Body w2 = [Lit "AB"].
Proof.
  refine (infohash_post_then_get (FakeStore.datastore None) httptest.NewRecorder
            (Fake.request [("name", "ubuntu"); ("info_hash", "AB")])
            (Fake.request [("name", "ubuntu"); ("info_hash", "AB")])
            FakeStore.empty _ eq_refl eq_refl).
  intros info σ0 σ1 [= <-]. eexists. simpl. by rewrite lookup_insert_eq.
Defined.

(** The two endpoints do not agree on the form of an info hash:
    PostInfoHashHandler stores the info_hash parameter as it is sent,
    the announce stores its hex encoding.  For one and the same
    parameter value the two stored hashes are never equal. *)
Theorem registered_hash_is_not_announce_key {W W'}
  (datastore : storage.Storage W) (webApp : webAppStruct W')
  w w0 r_post r σ σ0 info peer :
  In (storage.Call_CreateTorrent info) (PostInfoHashHandler datastore w r_post σ).2 ->
  In (Call_Update peer) (calls (run (GetAnnounceHandler webApp w0 r) σ0).2) ->
  Values_Get (URL_Query r_post) "info_hash" = Values_Get (URL_Query r) "info_hash" ->
  storage.InfoHash info = Values_Get (URL_Query r_post) "info_hash" /\
  InfoHash peer = hex.EncodeToString (Values_Get (URL_Query r_post) "info_hash") /\
  storage.InfoHash info <> InfoHash peer.
Proof.
  intros Hpost Hann%Update_call_announce_peer Heq.
  unfold PostInfoHashHandler in Hpost.
  destruct (String.eqb (Values_Get (URL_Query r_post) "name") "" || _) eqn:Hinc;
    [simpl in Hpost; tauto|].
  apply orb_false_iff in Hinc as [_ Hh]. apply String.eqb_neq in Hh.
  destruct (storage.CreateTorrent datastore _ σ) as [[e|] σ'];
    simpl in Hpost; destruct Hpost as [[= <-]|[]]; simpl;
    unfold announce_peer in Hann;
    (destruct (validation_error (URL_Query r)); [discriminate|]);
    injection Hann as <-; simpl; rewrite <- Heq;
    (repeat split; try done);
    intros Hbad; apply (f_equal String.length) in Hbad;
    rewrite EncodeToString_length in Hbad;
    (destruct (Values_Get (URL_Query r_post) "info_hash"); simpl in Hbad; [done | lia]).
Qed.

Lemma registered_hash_is_not_announce_key_AB :
  "AB" = "AB" /\ "4142" = hex.EncodeToString "AB" /\ "AB" <> "4142".
Proof.
  refine (registered_hash_is_not_announce_key
            (FakeStore.datastore None) (Fake.webApp Fake.no_faults)
            httptest.NewRecorder newResponseWriter
            (Fake.request [("name", "ubuntu"); ("info_hash", "AB")])
            (Fake.request Fake.scenario) FakeStore.empty []
            {| storage.TorrentName := "ubuntu"; storage.InfoHash := "AB" |}
            scenario_peer _ _ _).
  - vm_compute. left. reflexivity.
  - vm_compute. left. reflexivity.
  - vm_compute. reflexivity.
Defined.

(** ** url.QueryUnescape *)

Fixpoint no_escape (s : string) : bool :=
  match s with
  | EmptyString => true
  | String c s' => negb (c =? "%")%char && negb (c =? "+")%char && no_escape s'
  end.

(** A name with neither percent nor plus sign is taken as it is. *)
Lemma QueryUnescape_plain s :
  no_escape s = true -> url.QueryUnescape s = (s, None).
Proof.
  unfold url.QueryUnescape.
  enough (no_escape s = true -> url.check s = None /\ url.translate s = s) as H.
  { intros [-> ->]%H. done. }
  induction s as [|c s IH]; [done|]. simpl.
  intros [[Hp Hq]%andb_true_iff Hs]%andb_true_iff.
  apply negb_true_iff in Hp, Hq. rewrite Hp, Hq.
  destruct (IH Hs) as [-> ->]. done.
Qed.

Lemma QueryUnescape_nonempty s t :
  s <> "" -> url.QueryUnescape s = (t, None) -> t <> "".
Proof.
  unfold url.QueryUnescape. intros Hs.
  destruct (url.check s) eqn:Hc; [discriminate|]. intros [= <-].
  destruct s as [|c rest]; [done|]. simpl in *.
  destruct (c =? "%")%char.
  - destruct rest as [|a [|b rest']]; discriminate.
  - destruct (c =? "+")%char; done.
Qed.

(** Every byte written as a percent sign and two hex digits. *)
Fixpoint escape_all (s : string) : string :=
  match s with
  | EmptyString => EmptyString
  | String c rest =>
      let b := Z.of_N (N_of_ascii c) in
      String "%" (String (hex.nibble (Z.shiftr b 4))
                    (String (hex.nibble (Z.land b 15)) (escape_all rest)))
  end.

Lemma escape_all_byte (c : ascii) :
  let hi := hex.nibble (Z.shiftr (Z.of_N (N_of_ascii c)) 4) in
  let lo := hex.nibble (Z.land (Z.of_N (N_of_ascii c)) 15) in
  url.ishex hi && url.ishex lo = true /\
  ascii_of_N (Z.to_N (Z.lor (Z.shiftl (url.unhex hi) 4) (url.unhex lo))) = c.
Proof. destruct c as [[] [] [] [] [] [] [] []]; vm_compute; done. Qed.

(** Every name can be written: unescaping the escaped form of any
    string of bytes gives the string back. *)
Theorem QueryUnescape_escape_all s :
  url.QueryUnescape (escape_all s) = (s, None).
Proof.
  unfold url.QueryUnescape.
  enough (url.check (escape_all s) = None /\ url.translate (escape_all s) = s)
    as [-> ->] by done.
  induction s as [|c s [IH1 IH2]]; [done|].
  destruct (escape_all_byte c) as [Hhex Hbyte]. cbv zeta in Hhex, Hbyte.
  cbn [escape_all url.check url.translate]. cbv zeta.
  change ("%" =? "%")%char with true. cbv iota.
  rewrite Hhex, IH1, IH2, Hbyte. done.
Qed.

(** ** GetManifestHandler and PostManifestHandler *)

(** GetManifestHandler never answers 500.  An empty name and a bad
    escape answer 400 without a call; otherwise ReadManifest is called
    once, with the unescaped name, which is not empty.  A failure of
    that call also answers 400, no manifest answers 404 with no body,
    and a manifest is written as it is stored with status 200: the
    status is fixed by that write, before WriteHeader is called. *)
Theorem GetManifestHandler_lookup {W} (datastore : storage.Storage W) w r σ :
  httptest.wroteHeader w = false ->
  let raw := chi_URLParam r "name" in
  let '(w', σ', made) := GetManifestHandler datastore w r σ in
  httptest.Code w' <> 500 /\
  match raw, url.QueryUnescape raw with
  | EmptyString, _ | _, (_, Some _) =>
      made = [] /\ σ' = σ /\ httptest.Code w' = 400
  | _, (name, None) =>
      name <> "" /\ made = [storage.Call_ReadManifest name] /\
      exists manifest err,
        storage.ReadManifest datastore name σ = ((manifest, err), σ') /\
        match err, manifest with
        | Some _, _ => httptest.Code w' = 400
        | None, None => httptest.Code w' = 404 /\ httptest.Body w' = httptest.Body w
        | None, Some m =>
            httptest.Code w' = 200 /\
            httptest.Body w' = (httptest.Body w ++ [Lit (storage.Manifest_ m)])%list
        end
  end.
Proof.
  intros Hw raw. unfold GetManifestHandler. fold raw.
  destruct raw as [|c raw'] eqn:Hraw.
  { simpl. unfold httptest.Write, httptest.WriteHeader, httptest.Header_Set.
    simpl. rewrite Hw. simpl. done. }
  change (String.length (String c raw') =? 0)%nat with false. cbv iota.
  destruct (url.QueryUnescape (String c raw')) as [name [e|]] eqn:HQ.
  { unfold httptest.Write, httptest.WriteHeader, httptest.Header_Set.
    simpl. rewrite Hw. simpl. done. }
  assert (name <> "") as Hne by (by eapply QueryUnescape_nonempty; [|exact HQ]).
  destruct (storage.ReadManifest datastore name σ) as [[m err] σ'] eqn:HR.
  destruct err as [e|]; [|destruct m as [m|]];
    unfold httptest.Write, httptest.WriteHeader, httptest.Header_Set;
    simpl; rewrite Hw; simpl;
    (split; [done|]); (split; [done|]); (split; [done|]);
    eexists _, _; (split; [reflexivity|]); done.
Qed.

Lemma GetManifestHandler_bad_escape :
  let '(w', σ', made) :=
    GetManifestHandler (FakeStore.datastore None) httptest.NewRecorder
      (FakeStore.routed "redis%3" "") FakeStore.empty in
  httptest.Code w' <> 500 /\
  made = [] /\ σ' = FakeStore.empty /\ httptest.Code w' = 400.
Proof.
  exact (GetManifestHandler_lookup (FakeStore.datastore None) httptest.NewRecorder
           (FakeStore.routed "redis%3" "") FakeStore.empty eq_refl).
Defined.

(** PostManifestHandler calls UpdateManifest at most once, and only with
    a payload that was read in full and that the JSON decoder took: the
    manifest stored is the payload byte for byte, under the unescaped
    name (never empty), with Flags 0.  The status is 200 exactly when
    that call was made and succeeded, and the reply has then no body;
    when no call is made the datastore is as it was. *)
Theorem PostManifestHandler_store {W} (datastore : storage.Storage W) json_Unmarshal
  w r σ :
  httptest.wroteHeader w = false ->
  let '(w', σ', made) := PostManifestHandler datastore json_Unmarshal w r σ in
  (made = [] /\ σ' = σ /\ httptest.Code w' <> 200 \/
   exists m err,
     made = [storage.Call_UpdateManifest m] /\
     url.QueryUnescape (chi_URLParam r "name") = (storage.TagName m, None) /\
     storage.TagName m <> "" /\
     Body_ReadAll r = (storage.Manifest_ m, None) /\
     json_Unmarshal (storage.Manifest_ m) = None /\
     storage.Flags m = 0 /\
     storage.UpdateManifest datastore m σ = (err, σ') /\
     match err with
     | Some _ => httptest.Code w' = 500
     | None => httptest.Code w' = 200 /\ httptest.Body w' = httptest.Body w
     end).
Proof.
  intros Hw. unfold PostManifestHandler.
  destruct (chi_URLParam r "name") as [|c raw'] eqn:Hraw.
  { left. simpl. unfold httptest.Write, httptest.WriteHeader, httptest.Header_Set.
    simpl. rewrite Hw. simpl. done. }
  change (String.length (String c raw') =? 0)%nat with false. cbv iota.
  destruct (url.QueryUnescape (String c raw')) as [name [e|]] eqn:HQ.
  { left. unfold httptest.Write, httptest.WriteHeader, httptest.Header_Set.
    simpl. rewrite Hw. simpl. done. }
  assert (name <> "") as Hne by (by eapply QueryUnescape_nonempty; [|exact HQ]).
  destruct (Body_ReadAll r) as [manifest [e|]] eqn:HB.
  { left. unfold httptest.Write, httptest.WriteHeader, httptest.Header_Set.
    simpl. rewrite Hw. simpl. done. }
  destruct (json_Unmarshal manifest) as [e|] eqn:HJ.
  { left. unfold httptest.Write, httptest.WriteHeader, httptest.Header_Set.
    simpl. rewrite Hw. simpl. done. }
  destruct (storage.UpdateManifest datastore _ σ) as [err σ'] eqn:HU.
  destruct err as [e|];
    unfold httptest.Write, httptest.WriteHeader, httptest.Header_Set;
    simpl; rewrite Hw; simpl; right;
    eexists _, _; (split; [reflexivity|]); simpl; rewrite HU; by repeat split.
Qed.

Lemma PostManifestHandler_not_json :
  let '(w', σ', made) :=
    PostManifestHandler (FakeStore.datastore None) FakeStore.json_Unmarshal
      httptest.NewRecorder (FakeStore.routed "redis" "[1, 2]") FakeStore.empty in
  made = [] /\ σ' = FakeStore.empty /\ httptest.Code w' <> 200.
Proof.
  destruct (PostManifestHandler_store (FakeStore.datastore None) FakeStore.json_Unmarshal
              httptest.NewRecorder (FakeStore.routed "redis" "[1, 2]") FakeStore.empty
              eq_refl) as [H | (m & err & H & _)].
  - exact H.
  - vm_compute in H. discriminate H.
Defined.

Lemma PostManifestHandler_200 {W} (datastore : storage.Storage W) json_Unmarshal
  w r σ :
  httptest.wroteHeader w = false ->
  httptest.Code (PostManifestHandler datastore json_Unmarshal w r σ).1.1 = 200 ->
  exists name,
    chi_URLParam r "name" <> "" /\
    url.QueryUnescape (chi_URLParam r "name") = (name, None) /\
    storage.UpdateManifest datastore
      {| storage.TagName := name; storage.Manifest_ := (Body_ReadAll r).1;
         storage.Flags := 0 |} σ
    = (None, (PostManifestHandler datastore json_Unmarshal w r σ).1.2).
Proof.
  intros Hw. unfold PostManifestHandler.
  destruct (chi_URLParam r "name") as [|c raw'] eqn:Hraw.
  { simpl. unfold httptest.Write, httptest.WriteHeader, httptest.Header_Set.
    simpl. rewrite Hw. simpl. discriminate. }
  change (String.length (String c raw') =? 0)%nat with false. cbv iota.
  destruct (url.QueryUnescape (String c raw')) as [name [e|]] eqn:HQ.
  { unfold httptest.Write, httptest.WriteHeader, httptest.Header_Set.
    simpl. rewrite Hw. simpl. discriminate. }
  destruct (Body_ReadAll r) as [manifest [e|]] eqn:HB.
  { unfold httptest.Write, httptest.WriteHeader, httptest.Header_Set.
    simpl. rewrite Hw. simpl. discriminate. }
  destruct (json_Unmarshal manifest) as [e|] eqn:HJ.
  { unfold httptest.Write, httptest.WriteHeader, httptest.Header_Set.
    simpl. rewrite Hw. simpl. discriminate. }
  destruct (storage.UpdateManifest datastore _ σ) as [[e|] σ'] eqn:HU.
  { unfold httptest.Write, httptest.WriteHeader, httptest.Header_Set.
    simpl. rewrite Hw. simpl. discriminate. }
  intros _. exists name. by repeat split.
Qed.

Lemma GetManifestHandler_found {W} (datastore : storage.Storage W) w r σ name m σ' :
  httptest.wroteHeader w = false ->
  chi_URLParam r "name" <> "" ->
  url.QueryUnescape (chi_URLParam r "name") = (name, None) ->
  storage.ReadManifest datastore name σ = ((Some m, None), σ') ->
  let w' := (GetManifestHandler datastore w r σ).1.1 in
  httptest.Code w' = 200 /\
  httptest.Body w' = (httptest.Body w ++ [Lit (storage.Manifest_ m)])%list.
Proof.
  intros Hw Hraw HQ HR. unfold GetManifestHandler.
  destruct (chi_URLParam r "name") as [|c raw']; [done|].
  change (String.length (String c raw') =? 0)%nat with false. cbv iota.
  rewrite HQ, HR. unfold httptest.Write, httptest.WriteHeader, httptest.Header_Set.
  simpl. rewrite Hw. simpl. done.
Qed.

(** Storing a manifest and reading it back.  Over a datastore that
    returns from ReadManifest what UpdateManifest stored under the tag
    name, a post answered 200 followed by a get of the same (escaped)
    name answers 200 with the payload of the post for body. *)
Theorem manifest_post_then_get {W} (datastore : storage.Storage W) json_Unmarshal
  w r_post r_get σ :
  (forall m σ0 σ1,
      storage.UpdateManifest datastore m σ0 = (None, σ1) ->
      exists σ2,
        storage.ReadManifest datastore (storage.TagName m) σ1 = ((Some m, None), σ2)) ->
  httptest.wroteHeader w = false ->
  chi_URLParam r_get "name" = chi_URLParam r_post "name" ->
  let '(w1, σ1, _) := PostManifestHandler datastore json_Unmarshal w r_post σ in
  httptest.Code w1 = 200 ->
  let '(w2, _, _) := GetManifestHandler datastore w r_get σ1 in
  httptest.Code w2 = 200 /\
  httptest.Body w2 = (httptest.Body w ++ [Lit (Body_ReadAll r_post).1])%list.
Proof.
  intros Hlaw Hw Hname.
  pose proof (PostManifestHandler_200 datastore json_Unmarshal w r_post σ Hw) as Hpost.
  destruct (PostManifestHandler datastore json_Unmarshal w r_post σ) as [[w1 σ1] made1].
  cbn [fst snd] in Hpost. intros H200. destruct (Hpost H200) as (name & Hraw & HQ & HU).
  apply Hlaw in HU as [σ2 HR]. cbn [storage.TagName] in HR.
  rewrite <- Hname in Hraw, HQ.
  pose proof (GetManifestHandler_found datastore w r_get σ1 name _ σ2 Hw Hraw HQ HR)
    as Hget.
  destruct (GetManifestHandler datastore w r_get σ1) as [[w2 σ2'] made2].
  exact Hget.
Qed.

Lemma manifest_post_then_get_redis :
  let r := FakeStore.routed "library%2Fredis" "{}" in
  let '(w1, σ1, _) :=
    PostManifestHandler (FakeStore.datastore None) FakeStore.json_Unmarshal
      httptest.NewRecorder r FakeStore.empty in
  httptest.Code w1 = 200 ->
  let '(w2, _, _) :=
    GetManifestHandler (FakeStore.datastore None) httptest.NewRecorder r σ1 in
  httptest.Code w2 = 200 /\ httptest.Body w2 = [Lit "{}"].
Proof.
  refine (manifest_post_then_get (FakeStore.datastore None) FakeStore.json_Unmarshal
            httptest.NewRecorder
            (FakeStore.routed "library%2Fredis" "{}")
            (FakeStore.routed "library%2Fredis" "{}")
            FakeStore.empty _ eq_refl eq_refl).
  intros m σ0 σ1 [= <-]. eexists. simpl. by rewrite lookup_insert_eq.
Defined.

Example manifest_stored_under_unescaped_name :
  (PostManifestHandler (FakeStore.datastore None) FakeStore.json_Unmarshal
     httptest.NewRecorder (FakeStore.routed "library%2Fredis" "{}") FakeStore.empty).2
  = [storage.Call_UpdateManifest
       {| storage.TagName := "library/redis"; storage.Manifest_ := "{}";
          storage.Flags := 0 |}].
Proof. vm_compute. reflexivity. Qed.

Lemma QueryUnescape_plain_redis :
  url.QueryUnescape "library/redis:3.2" = ("library/redis:3.2", None).
Proof. exact (QueryUnescape_plain "library/redis:3.2" eq_refl). Defined.

(** ** No second attempt *)

(** Whatever the request and whatever the collaborators answer, the
    handler calls each of Update, Read, AssignPeerPriority and
    SamplePeers at most once: nothing is tried again. *)
Theorem announce_no_retry {W} (webApp : webAppStruct W) w r σ op :
  let ops := map op_of (calls (run (GetAnnounceHandler webApp w r) σ).2) in
  (count_occ Op_eq_dec ops op <= 1)%nat /\ (length ops <= 4)%nat.
Proof.
  intros ops.
  destruct (validation_error (URL_Query r)) as [e|] eqn:He.
  { subst ops. unfold run. rewrite (GetAnnounceHandler_invalid _ _ _ e) by done.
    simpl. lia. }
  apply well_formed_validation_error, well_formed_announce_peer in He as [peer Hp].
  destruct (pipeline_run_ops webApp w peer σ _ (GetAnnounceHandler_run webApp w r peer σ Hp))
    as (n & Hn & Hops).
  fold ops in Hops. rewrite Hops.
  destruct n as [|[|[|[|[|]]]]]; try lia; destruct op; simpl; lia.
Qed.

(** A failed Update ends the announce there: the reply is the
    http.Error of that failure with status 500, Update is the only call
    made, and the state is the one Update left. *)
Theorem Update_failure_ends_announce {W} (webApp : webAppStruct W) w r σ peer e σ1 :
  announce_peer (URL_Query r) = Some peer ->
  Update (datastore webApp) peer σ = (Some e, σ1) ->
  run (GetAnnounceHandler webApp w r) σ
  = (http_Error w (err_Error e) StatusInternalServerError,
     {| world := σ1; calls := [Call_Update peer] |}).
Proof.
  intros Hp HU.
  destruct (GetAnnounceHandler_run webApp w r peer σ Hp)
    as [e' σ1' HU' | σ1' l e' σ2 HU' | σ1' l σ2 l' e' σ3 HU'
       | σ1' l σ2 l' σ3 l'' e' σ4 HU' | σ1' l σ2 l' σ3 l'' σ4 HU'];
    rewrite HU in HU'; try discriminate.
  by injection HU' as <- <-.
Qed.

Definition Update_fails_faults : Fake.Faults :=
  {| Fake.Update_err := Some (errors_New "update: connection refused");
     Fake.Read_err := None;
     Fake.AssignPeerPriority_err := None;
     Fake.SamplePeers_err := None;
     Fake.Marshal_err := None |}.

Lemma Update_failure_scenario :
  run (GetAnnounceHandler (Fake.webApp Update_fails_faults) newResponseWriter
         (Fake.request Fake.scenario)) []
  = (http_Error newResponseWriter
       (err_Error (errors_New "update: connection refused")) StatusInternalServerError,
     {| world := []; calls := [Call_Update scenario_peer] |}).
Proof.
  refine (Update_failure_ends_announce (Fake.webApp Update_fails_faults)
            newResponseWriter (Fake.request Fake.scenario) [] scenario_peer
            (errors_New "update: connection refused") [] _ _).
  - vm_compute. reflexivity.
  - vm_compute. reflexivity.
Defined.
